(** * Override resolution of ufunc calls: [numpy/_core/src/umath/override.c]

    A shallow embedding of the four static functions of [override.c] and of
    [PyUFunc_CheckOverride], followed by the properties of the dispatch
    protocol.

    - A [PyObject *] is an address ([N]); [NULL] is address 0.
    - The CPython and NumPy entry points that [override.c] calls but does not
      define are the fields of the class [CPython].
    - A Python dictionary with string keys is a [gmap string N].
    - Calls into external code thread an abstract interpreter state, the
      [World], and are recorded in a log, so that the order and the arguments
      of the handler invocations can be stated.
    - [PyDict_New], [PyTuple_New], [PyUnicode_FromString] and the dictionary
      look-ups and updates report failure only when memory runs out; they are
      taken as successful, so the exits of lines 342-344, 346-348, 400-402 and
      448-450 have no counterpart here, and neither have the [-1] returns of
      the three helpers (lines 162, 171, 178, 181, 210, 215, 219 and 273),
      which leave by lines 346-348 and 395-397.  Every property below is
      about the paths on which these calls succeed.  Of the exits left out,
      that of lines 448-450 is the only one that does not release what the
      call holds: the slot chosen at lines 434-437 is already cleared there,
      so its operand and handler are not reached by the cleanup of lines
      517-520.
    - An access outside a C array (a store past [with_override[NPY_MAXARGS-1]],
      a read past the end of [args] or of a keyword table) is undefined in C
      and is a result of its own in the model. *)

From Stdlib Require Import ZArith NArith String List Lia.
From stdpp Require Import base option list gmap strings.

Open Scope string_scope.
Open Scope N_scope.
Open Scope list_scope.

(** ** Pointers and the interpreter interface *)

Abbreviation ptr := N.

Definition NULL : ptr := 0.

(** A Python error as [override.c] leaves it when it returns -1. *)
Inductive exception :=
| TypeError (msg : string)
    (* PyErr_SetString, PyErr_Format with PyExc_TypeError *)
| TypeError_object (errmsg : ptr)
    (* PyErr_SetObject(PyExc_TypeError, errmsg), line 480 *)
| Pending.
    (* the error that a failed external call left set *)

(** What the file takes from CPython and from the rest of NumPy.  Types,
    [isinstance] and the lookup of [__array_ufunc__] are read as fixed
    during one call of [PyUFunc_CheckOverride]; calling an object and
    importing the message formatter run external code, so they take and
    return the [World]. *)
Class CPython := {
  World : Type;
  (* singletons *)
  Py_None : ptr;
  Py_NotImplemented : ptr;
  NoValue : ptr;                      (* npy_static_pydata._NoValue *)
  Py_None_not_NULL : Py_None <> NULL;
  Py_NotImplemented_not_NULL : Py_NotImplemented <> NULL;
  (* object layout *)
  Py_TYPE : ptr -> ptr;
  tp_name : ptr -> string;
  PyTuple_items : ptr -> list ptr;    (* PyTuple_GET_SIZE, PyTuple_GET_ITEM *)
  PyUnicode_AsUTF8 : ptr -> string;   (* the text of a keyword name *)
  PyUnicode_FromString : string -> ptr;
  (* int PyObject_IsInstance(inst, cls): 1, 0, or -1 on error *)
  PyObject_IsInstance : ptr -> ptr -> Z;
  (* PyObject_Call(callable, args, kwargs): NULL when the callee raised *)
  PyObject_Call : World -> ptr -> list ptr -> gmap string ptr -> World * ptr;
  (* ufunc_override.c: NULL for no override, else a new reference to the
     [__array_ufunc__] attribute, Py_None included *)
  PyUFuncOverride_GetNonDefaultArrayUfunc : ptr -> ptr;
  (* npy_cache_import_runtime("numpy._core._internal",
     "array_ufunc_errmsg_formatter", ...): [None] stands for -1 *)
  npy_cache_import_runtime : World -> World * option ptr;
  NPY_MAXARGS : nat
}.

(** Outcome of a computation of the model: a value, a Python error (the
    function returns -1), or a read or write outside a C array. *)
Inductive result (A : Type) :=
| Ok (a : A)
| Raise (e : exception)
| Undefined.
Arguments Ok {A} a.
Arguments Raise {A} e.
Arguments Undefined {A}.

Section Normalizer.
Context `{CPython}.

(** ** Parameter normalizer (lines 153-277)

    The dictionary operations fail only when memory runs out; the model
    takes them as successful.  [None] is a read past the end of [args] or of
    [keywords]. *)

(* lines 159-164: normal_kwds[kwnames[i]] = args[i + len_args] *)
Fixpoint store_kwnames (names : list ptr) (i : nat) (args : list ptr)
    (len_args : nat) (normal_kwds : gmap string ptr)
    : option (gmap string ptr) :=
  match names with
  | [] => Some normal_kwds
  | name :: names' =>
      match args !! (i + len_args)%nat with
      | None => None
      | Some value =>
          store_kwnames names' (S i) args len_args
            (<[PyUnicode_AsUTF8 name := value]> normal_kwds)
      end
  end.

Definition initialize_normal_kwds (out_args : ptr) (args : list ptr)
    (len_args : nat) (kwnames : ptr) (normal_kwds : gmap string ptr)
    : option (gmap string ptr) :=
  match (if N.eqb kwnames NULL then Some normal_kwds
         else store_kwnames (PyTuple_items kwnames) 0 args len_args
                normal_kwds) with
  | None => None
  | Some kwds =>
      if negb (N.eqb out_args NULL) then
        (* Replace `out` argument with the normalized version *)
        Some (<["out" := out_args]> kwds)
      else
        (* Ensure that `out` is not present. *)
        match kwds !! "out" with
        | Some _ => Some (delete "out" kwds)
        | None => Some kwds
        end
  end.

Definition normalize_signature_keyword (normal_kwds : gmap string ptr)
    : gmap string ptr :=
  match normal_kwds !! "sig" with
  | Some obj => delete "sig" (<["signature" := obj]> normal_kwds)
  | None => normal_kwds
  end.

(* the body of the loop of lines 255-275, [n] iterations from index [i];
   the assert of line 265 holds for the table of reduce, the only one with
   an entry 5 *)
Fixpoint copy_positional_from (n i : nat) (keywords : list (option string))
    (args : list ptr) (normal_kwds : gmap string ptr)
    : option (gmap string ptr) :=
  match n with
  | O => Some normal_kwds
  | S n' =>
      match keywords !! i with
      | None => None
      | Some None =>
          (* keyword argument is either input or output and not set here *)
          copy_positional_from n' (S i) keywords args normal_kwds
      | Some (Some keyword) =>
          match args !! i with
          | None => None
          | Some value =>
              if Nat.eqb i 5 && N.eqb value NoValue then
                copy_positional_from n' (S i) keywords args normal_kwds
              else
                copy_positional_from n' (S i) keywords args
                  (<[keyword := value]> normal_kwds)
          end
      end
  end.

Definition copy_positional_args_to_kwargs (keywords : list (option string))
    (args : list ptr) (len_args : nat) (normal_kwds : gmap string ptr)
    : option (gmap string ptr) :=
  copy_positional_from len_args 0 keywords args normal_kwds.

(* the static tables of lines 364-366, 372-373 and 379-380 *)
Definition reduce_keywords : list (option string) :=
  [None; Some "axis"; Some "dtype"; None; Some "keepdims";
   Some "initial"; Some "where"].
Definition accumulate_keywords : list (option string) :=
  [None; Some "axis"; Some "dtype"; None].
Definition reduceat_keywords : list (option string) :=
  [None; None; Some "axis"; Some "dtype"; None].

Definition unknown_method_message (method : string) : string :=
  ("Internal Numpy error: unknown ufunc method '" ++ method ++
   "' in call to PyUFunc_CheckOverride")%string.

Definition of_option {A} (o : option A) : result A :=
  match o with Some a => Ok a | None => Undefined end.

(* lines 357-397: the normalization that the method name selects *)
Definition normalize_by_method (method : string) (args : list ptr)
    (len_args : nat) (normal_kwds : gmap string ptr)
    : result (gmap string ptr) :=
  if String.eqb method "__call__" || String.eqb method "outer" then
    Ok (normalize_signature_keyword normal_kwds)
  else if String.eqb method "reduce" then
    of_option (copy_positional_args_to_kwargs reduce_keywords
                 args len_args normal_kwds)
  else if String.eqb method "accumulate" then
    of_option (copy_positional_args_to_kwargs accumulate_keywords
                 args len_args normal_kwds)
  else if String.eqb method "reduceat" then
    of_option (copy_positional_args_to_kwargs reduceat_keywords
                 args len_args normal_kwds)
  else if String.eqb method "at" then
    Ok normal_kwds
  else
    Raise (TypeError (unknown_method_message method)).

(* lines 341-397: normal_kwds as the handlers will receive it *)
Definition normalize_ufunc_arguments (method : string) (out_args : ptr)
    (args : list ptr) (len_args : nat) (kwnames : ptr)
    : result (gmap string ptr) :=
  match initialize_normal_kwds out_args args len_args kwnames ∅ with
  | None => Undefined
  | Some normal_kwds => normalize_by_method method args len_args normal_kwds
  end.

End Normalizer.

(** ** Logs

    The model records what the code does to the outside: the capability
    queries, the handler invocations, the call of the message formatter, and
    the reference counts of the objects held in [with_override] and
    [array_ufunc_methods] and of the items of the argument tuple
    [override_args].  The tuple has no address in the model: the references
    that lines 451-459 and 468 take for its items are recorded when they are
    taken, and given back when [Py_DECREF(override_args)] of line 483 or 496
    gives the tuple up, which is taken to delete it, so that every item is
    DECREF'd.  Not recorded are the reference to [method_name] of lines 399
    and 521, that to [normal_kwds], and those to the values that a handler
    or the formatter returns. *)

Record invocation := Invocation {
  inv_callee : ptr;
  inv_args : list ptr;
  inv_kwds : gmap string ptr;
  inv_ret : ptr
}.

Inductive ref_event :=
| New_reference (o : ptr)   (* a call returned a new reference to o *)
| Py_INCREF (o : ptr)
| Py_DECREF (o : ptr).      (* also Py_XDECREF of a pointer that is not NULL,
                               and the DECREF of an item of a deleted tuple *)

(* references to [o] acquired and not yet given up *)
Fixpoint held (log : list ref_event) (o : ptr) : Z :=
  match log with
  | [] => 0%Z
  | New_reference o' :: log' | Py_INCREF o' :: log' =>
      ((if N.eqb o' o then 1 else 0) + held log' o)%Z
  | Py_DECREF o' :: log' =>
      ((if N.eqb o' o then -1 else 0) + held log' o)%Z
  end.

Inductive collected :=
| Overrides (with_override methods : list ptr)
                                  (* return num_override_args *)
| Collect_error (e : exception)   (* return -1 *)
| Overflow.                       (* a store past the end of with_override *)

Record scan := Scan {
  scan_result : collected;
  scan_queries : list (ptr * ptr);   (* operand, what the query returned *)
  scan_refs : list ref_event
}.

Inductive outcome :=
| Success (result : ptr)     (* return 0; *result, NULL: no override *)
| Failure (e : exception)    (* return -1 *)
| Undefined_behaviour        (* an access outside a C array *)
| More_rounds.               (* the round budget of the model is used up *)

Section Resolver.
Context `{CPython}.

Record run := Run {
  run_outcome : outcome;
  run_world : World;
  run_queries : list (ptr * ptr);
  run_calls : list invocation;       (* line 493, in order *)
  run_report : option invocation;    (* line 476 *)
  run_refs : list ref_event
}.

(** ** Candidate collector (lines 51-124) *)

(* lines 59-62 *)
Definition narg (in_args : ptr) : nat := length (PyTuple_items in_args).
Definition nout (out_args : ptr) : nat :=
  if N.eqb out_args NULL then 0%nat else length (PyTuple_items out_args).
Definition nwhere (wheremask_obj : ptr) : nat :=
  if N.eqb wheremask_obj NULL then 0%nat else 1%nat.

(* lines 69-77: the operand that index i selects *)
Definition operand_at (in_args out_args wheremask_obj : ptr) (i : nat) : ptr :=
  if (i <? narg in_args)%nat then nth i (PyTuple_items in_args) NULL
  else if (i <? narg in_args + nout out_args)%nat then
    nth (i - narg in_args) (PyTuple_items out_args) NULL
  else wheremask_obj.

(* the operands in the order of the loop of line 64: [operand_at] for
   i = 0, ..., narg + nout + nwhere - 1 (lemma [scanned_operands_lookup]) *)
Definition scanned_operands (in_args out_args wheremask_obj : ptr) : list ptr :=
  PyTuple_items in_args
  ++ (if N.eqb out_args NULL then [] else PyTuple_items out_args)
  ++ (if N.eqb wheremask_obj NULL then [] else [wheremask_obj]).

(* lines 86-91: new_class is 0 when some with_override[j] has the type of obj *)
Definition new_class (obj : ptr) (with_override : list ptr) : bool :=
  negb (existsb (fun seen => N.eqb (Py_TYPE obj) (Py_TYPE seen)) with_override).

(* lines 118-122 *)
Definition release_overrides (with_override methods : list ptr)
    : list ref_event :=
  flat_map (fun '(obj, method) => [Py_DECREF obj; Py_DECREF method])
    (zip with_override methods).

Definition retrieve_message : string :=
  "failed to retrieve argument from input or output tuples.".

Definition unsupported_message (obj : ptr) : string :=
  ("operand '" ++ String.substring 0 200 (tp_name (Py_TYPE obj)) ++
   "' does not support ufuncs (__array_ufunc__=None)")%string.

(* the loop of lines 64-115 over the operands still to visit *)
Fixpoint scan_operands (operands with_override methods : list ptr) : scan :=
  match operands with
  | [] => Scan (Overrides with_override methods) [] []
  | obj :: operands' =>
      if N.eqb obj NULL then
        Scan (Collect_error (TypeError retrieve_message)) []
          (release_overrides with_override methods)
      else if new_class obj with_override then
        let method := PyUFuncOverride_GetNonDefaultArrayUfunc obj in
        if N.eqb method NULL then
          let s := scan_operands operands' with_override methods in
          Scan (scan_result s) ((obj, method) :: scan_queries s) (scan_refs s)
        else if N.eqb method Py_None then
          Scan (Collect_error (TypeError (unsupported_message obj)))
            [(obj, method)]
            (New_reference method :: Py_DECREF method
               :: release_overrides with_override methods)
        else if (NPY_MAXARGS <=? length with_override)%nat then
          Scan Overflow [(obj, method)] [New_reference method; Py_INCREF obj]
        else
          let s := scan_operands operands' (with_override ++ [obj])
                     (methods ++ [method]) in
          Scan (scan_result s) ((obj, method) :: scan_queries s)
            (New_reference method :: Py_INCREF obj :: scan_refs s)
      else scan_operands operands' with_override methods
  end.

Definition get_array_ufunc_overrides (in_args out_args wheremask_obj : ptr)
    : scan :=
  scan_operands (scanned_operands in_args out_args wheremask_obj) [] [].

(** ** Resolution loop (lines 404-523) *)

(* lines 421-430: is there, among the slots to the right, an object of
   another type that is an instance of the type of override_obj?  Any
   result of PyObject_IsInstance other than 0 counts, as in C. *)
Definition subtype_to_the_right (override_obj : ptr) (others : list ptr)
    : bool :=
  existsb (fun other_obj =>
             negb (N.eqb other_obj NULL)
             && negb (N.eqb (Py_TYPE other_obj) (Py_TYPE override_obj))
             && negb (Z.eqb (PyObject_IsInstance other_obj
                               (Py_TYPE override_obj)) 0))
    others.

(* lines 414-440, from index i on; [slots] is with_override[i], ... *)
Fixpoint choose_from (i : nat) (slots : list ptr) : option nat :=
  match slots with
  | [] => None
  | override_obj :: others =>
      if N.eqb override_obj NULL then choose_from (S i) others
      else if subtype_to_the_right override_obj others then
        choose_from (S i) others
      else Some i
  end.

Definition choose (with_override : list ptr) : option nat :=
  choose_from 0 with_override.

Definition Py_XDECREF (o : ptr) : list ref_event :=
  if N.eqb o NULL then [] else [Py_DECREF o].

(* lines 517-520 *)
Definition cleanup (with_override methods : list ptr) : list ref_event :=
  flat_map (fun '(obj, method) => Py_XDECREF obj ++ Py_XDECREF method)
    (zip with_override methods).

Record loop_end := Loop_end {
  loop_outcome : outcome;
  loop_world : World;
  loop_calls : list invocation;
  loop_report : option invocation;
  loop_refs : list ref_event
}.

Section Loop.
Variables (ufunc method_name : ptr) (in_items : list ptr)
          (normal_kwds : gmap string ptr).

(* lines 447-460 and 469 / 491: the argument tuple with [self] in slot 0 *)
Definition override_args (self : ptr) : list ptr :=
  self :: ufunc :: method_name :: in_items.

(* lines 451-460: the references taken for the items 1, 2, 3, ... of the
   tuple; PyTuple_SET_ITEM hands them to the tuple, which gives them back
   when it is deleted *)
Definition fill_override_args : list ref_event :=
  map Py_INCREF (ufunc :: method_name :: in_items).

(* Py_DECREF(override_args), lines 483 and 496: the tuple is given up and,
   being deleted, DECREFs each of its items, [self] in slot 0 included *)
Definition delete_override_args (self : ptr) : list ref_event :=
  map Py_DECREF (override_args self).

(* the reference events of a round that invokes a handler: the tuple is
   filled; line 491 moves the reference held in with_override[i] into slot 0
   (no count changes); line 495 drops the handler; line 496 deletes the
   tuple *)
Definition invocation_refs (override_obj override_array_ufunc : ptr)
    : list ref_event :=
  fill_override_args ++ [Py_DECREF override_array_ufunc]
  ++ delete_override_args override_obj.

(* lines 463-485: no acceptable override found *)
Definition report_unhandled (w : World) (with_override methods : list ptr)
    : loop_end :=
  match npy_cache_import_runtime w with
  | (w1, None) =>
      (* line 474: goto fail, and override_args is not released *)
      Loop_end (Failure Pending) w1 [] None
        (fill_override_args ++ [Py_INCREF Py_None]
         ++ cleanup with_override methods)
  | (w1, Some formatter) =>
      let '(w2, errmsg) :=
        PyObject_Call w1 formatter (override_args Py_None) normal_kwds in
      Loop_end
        (Failure (if N.eqb errmsg NULL then Pending
                  else TypeError_object errmsg))
        w2 []
        (Some (Invocation formatter (override_args Py_None) normal_kwds errmsg))
        (fill_override_args ++ [Py_INCREF Py_None]
         ++ delete_override_args Py_None
         ++ cleanup with_override methods)
  end.

(* the while (1) of lines 407-510 followed by the cleanup; every round
   clears one slot, so num_override_args + 1 rounds are enough *)
Fixpoint resolution_loop (rounds : nat) (w : World)
    (with_override methods : list ptr) : loop_end :=
  match rounds with
  | O => Loop_end More_rounds w [] None []
  | S rounds' =>
      match choose with_override with
      | None => report_unhandled w with_override methods
      | Some i =>
          let override_obj := nth i with_override NULL in
          let override_array_ufunc := nth i methods NULL in
          (* We won't call this one again *)
          let with_override' := <[i := NULL]> with_override in
          let methods' := <[i := NULL]> methods in
          let '(w', result) :=
            PyObject_Call w override_array_ufunc (override_args override_obj)
              normal_kwds in
          let call :=
            Invocation override_array_ufunc (override_args override_obj)
              normal_kwds result in
          let released :=
            invocation_refs override_obj override_array_ufunc in
          if N.eqb result NULL then
            (* Exception occurred *)
            Loop_end (Failure Pending) w' [call] None
              (released ++ cleanup with_override' methods')
          else if N.eqb result Py_NotImplemented then
            (* Try the next one *)
            let rest := resolution_loop rounds' w' with_override' methods' in
            Loop_end (loop_outcome rest) (loop_world rest)
              (call :: loop_calls rest) (loop_report rest)
              (released ++ loop_refs rest)
          else
            (* Good result. *)
            Loop_end (Success result) w' [call] None
              (released ++ cleanup with_override' methods')
      end
  end.

End Loop.

(** ** The entry point (lines 306-524) *)

Definition PyUFunc_CheckOverride (ufunc : ptr) (method : string)
    (in_args out_args wheremask_obj : ptr) (args : list ptr) (len_args : nat)
    (kwnames : ptr) (w : World) : run :=
  let s := get_array_ufunc_overrides in_args out_args wheremask_obj in
  match scan_result s with
  | Collect_error e =>
      (* num_override_args == -1: the loop of line 517 runs no iteration *)
      Run (Failure e) w (scan_queries s) [] None (scan_refs s)
  | Overflow =>
      Run Undefined_behaviour w (scan_queries s) [] None (scan_refs s)
  | Overrides with_override methods =>
      match with_override with
      | [] =>
          (* No overrides, bail out. *)
          Run (Success NULL) w (scan_queries s) [] None (scan_refs s)
      | _ :: _ =>
          match normalize_ufunc_arguments method out_args args len_args
                  kwnames with
          | Undefined =>
              Run Undefined_behaviour w (scan_queries s) [] None (scan_refs s)
          | Raise e =>
              Run (Failure e) w (scan_queries s) [] None
                (scan_refs s ++ cleanup with_override methods)
          | Ok normal_kwds =>
              let e :=
                resolution_loop ufunc (PyUnicode_FromString method)
                  (PyTuple_items in_args) normal_kwds
                  (S (length with_override)) w with_override methods in
              Run (loop_outcome e) (loop_world e) (scan_queries s)
                (loop_calls e) (loop_report e) (scan_refs s ++ loop_refs e)
          end
      end
  end.

End Resolver.

(** ** Vocabulary of the properties *)

Section Vocabulary.
Context `{CPython}.

(* the test of lines 424-426 for [other] against [obj] *)
Definition strictly_derived (other obj : ptr) : Prop :=
  Py_TYPE other <> Py_TYPE obj
  /\ PyObject_IsInstance other (Py_TYPE obj) <> 0%Z.

(* slot i holds a candidate and a later slot holds a remaining candidate
   whose type derives from the type of slot i *)
Definition disqualified (slots : list ptr) (i : nat) : Prop :=
  exists j obj other,
    slots !! i = Some obj /\ (i < j)%nat /\ slots !! j = Some other
    /\ other <> NULL /\ strictly_derived other obj.

Definition selectable (slots : list ptr) (i : nat) : Prop :=
  (exists obj, slots !! i = Some obj /\ obj <> NULL) /\ ~ disqualified slots i.

Definition first_selectable (slots : list ptr) (i : nat) : Prop :=
  selectable slots i /\ forall i', (i' < i)%nat -> ~ selectable slots i'.

(* the array after the slots listed in [consumed] were set to NULL *)
Definition clear_slots (consumed : list nat) (slots : list ptr) : list ptr :=
  foldl (fun l i => <[i := NULL]> l) slots consumed.

(* the number of slots that still hold a candidate *)
Definition remaining (slots : list ptr) : nat :=
  length (filter (fun obj => obj <> NULL) slots).

(* slot 0 of the argument tuple *)
Definition inv_self (c : invocation) : ptr := hd NULL (inv_args c).

(* the operand and the handler of an invocation *)
Definition candidate_of (c : invocation) : ptr * ptr :=
  (inv_self c, inv_callee c).


(* lines 98 and 110-112 for the candidates stored so far *)
Definition acquire_overrides (with_override methods : list ptr)
    : list ref_event :=
  flat_map (fun '(obj, method) => [New_reference method; Py_INCREF obj])
    (zip with_override methods).

(* a slot holds a candidate and its handler, or NULL twice *)
Definition paired (with_override methods : list ptr) : Prop :=
  Forall2 (fun obj method => obj = NULL <-> method = NULL)
    with_override methods.

(* what holds of with_override and methods after the operands [visited] *)
Record collector_inv (visited with_override methods : list ptr) : Prop := {
  inv_length : length with_override = length methods;
  inv_bound : (length with_override <= NPY_MAXARGS)%nat;
  inv_not_null : Forall (fun obj => obj <> NULL) with_override;
  inv_types : NoDup (map Py_TYPE with_override);
  inv_methods :
    Forall2 (fun obj method =>
               method = PyUFuncOverride_GetNonDefaultArrayUfunc obj
               /\ method <> NULL /\ method <> Py_None)
      with_override methods;
  inv_covered :
    Forall (fun obj => Py_TYPE obj ∈ map Py_TYPE with_override
                       \/ PyUFuncOverride_GetNonDefaultArrayUfunc obj = NULL)
      visited;
  inv_first :
    forall obj, obj ∈ with_override ->
      exists k, visited !! k = Some obj
        /\ forall k' obj', (k' < k)%nat -> visited !! k' = Some obj' ->
             Py_TYPE obj' = Py_TYPE obj ->
             PyUFuncOverride_GetNonDefaultArrayUfunc obj' = NULL
}.

Definition known_methods : list string :=
  ["__call__"; "outer"; "reduce"; "accumulate"; "reduceat"; "at"]%string.

(** One run of the loop as a derivation: each rule is one way through the
    body of the [while (1)]. *)
Inductive resolves (ufunc method_name : ptr) (in_items : list ptr)
    (normal_kwds : gmap string ptr)
    : World -> list ptr -> list ptr -> loop_end -> Prop :=
| resolves_unhandled w with_override methods :
    choose with_override = None ->
    resolves ufunc method_name in_items normal_kwds w with_override methods
      (report_unhandled ufunc method_name in_items normal_kwds w
         with_override methods)
| resolves_raised w with_override methods i w' :
    choose with_override = Some i ->
    PyObject_Call w (nth i methods NULL)
      (override_args ufunc method_name in_items (nth i with_override NULL))
      normal_kwds = (w', NULL) ->
    resolves ufunc method_name in_items normal_kwds w with_override methods
      (Loop_end (Failure Pending) w'
         [Invocation (nth i methods NULL)
            (override_args ufunc method_name in_items (nth i with_override NULL))
            normal_kwds NULL]
         None
         (invocation_refs ufunc method_name in_items
            (nth i with_override NULL) (nth i methods NULL)
          ++ cleanup (<[i := NULL]> with_override) (<[i := NULL]> methods)))
| resolves_result w with_override methods i w' result :
    choose with_override = Some i ->
    PyObject_Call w (nth i methods NULL)
      (override_args ufunc method_name in_items (nth i with_override NULL))
      normal_kwds = (w', result) ->
    result <> NULL -> result <> Py_NotImplemented ->
    resolves ufunc method_name in_items normal_kwds w with_override methods
      (Loop_end (Success result) w'
         [Invocation (nth i methods NULL)
            (override_args ufunc method_name in_items (nth i with_override NULL))
            normal_kwds result]
         None
         (invocation_refs ufunc method_name in_items
            (nth i with_override NULL) (nth i methods NULL)
          ++ cleanup (<[i := NULL]> with_override) (<[i := NULL]> methods)))
| resolves_declined w with_override methods i w' rest :
    choose with_override = Some i ->
    PyObject_Call w (nth i methods NULL)
      (override_args ufunc method_name in_items (nth i with_override NULL))
      normal_kwds = (w', Py_NotImplemented) ->
    resolves ufunc method_name in_items normal_kwds w'
      (<[i := NULL]> with_override) (<[i := NULL]> methods) rest ->
    resolves ufunc method_name in_items normal_kwds w with_override methods
      (Loop_end (loop_outcome rest) (loop_world rest)
         (Invocation (nth i methods NULL)
            (override_args ufunc method_name in_items (nth i with_override NULL))
            normal_kwds Py_NotImplemented :: loop_calls rest)
         (loop_report rest)
         (invocation_refs ufunc method_name in_items
            (nth i with_override NULL) (nth i methods NULL)
          ++ loop_refs rest)).

End Vocabulary.

(** ** A small interpreter to run the model on

    Types: 10 plain array (no override), 11 [A], 12 [B] (derived from [A]),
    13 [C] ([__array_ufunc__ = None]), 14 [D], 15 [E].  Objects 20..25 are
    one instance of each.  The handlers of [A] and [B] decline, that of [D]
    returns object 77, that of [E] raises. *)
Module Example.

Definition type_of (o : ptr) : ptr :=
  match o with
  | 21 => 11 | 22 => 12 | 23 => 13 | 24 => 14 | 25 => 15
  | _ => 10
  end.

Definition name_of (t : ptr) : string :=
  match t with
  | 11 => "A" | 12 => "B" | 13 => "C" | 14 => "D" | 15 => "E"
  | _ => "numpy.ndarray"
  end.

Definition array_ufunc_of (o : ptr) : ptr :=
  match type_of o with
  | 11 => 31 | 12 => 32 | 13 => 1 | 14 => 34 | 15 => 35
  | _ => NULL
  end.

Definition isinstance (inst cls : ptr) : Z :=
  if N.eqb (type_of inst) cls then 1%Z
  else if N.eqb (type_of inst) 12 && N.eqb cls 11 then 1%Z
  else 0%Z.

Definition items_of (t : ptr) : list ptr :=
  match t with
  | 40 => [21; 22]          (* (a, b) *)
  | 41 => [21; 22; 24]      (* (a, b, d) *)
  | 42 => [20; 23; 24]      (* (x, c, d) *)
  | 43 => [20]              (* (x,) *)
  | 44 => [25; 24]          (* (e, d) *)
  | 45 => [20; 21; 21; 22; 20; 22]
  | 46 => [21; 23; 24]      (* (a, c, d) *)
  | 47 => [20; 24]          (* (x, d) *)
  | 60 => [61]              (* kwnames ("sig",) *)
  | _ => []
  end.

Definition text_of (u : ptr) : string :=
  match u with
  | 61 => "sig"
  | _ => "dtype"
  end.

Definition call (w : nat) (callee : ptr) (args : list ptr)
    (kwds : gmap string ptr) : nat * ptr :=
  (S w,
   match callee with
   | 31 | 32 => 2
   | 34 => 77
   | 50 => 51
   | _ => NULL
   end).

Definition python : CPython := {|
  World := nat;
  Py_None := 1;
  Py_NotImplemented := 2;
  NoValue := 3;
  Py_None_not_NULL := ltac:(discriminate);
  Py_NotImplemented_not_NULL := ltac:(discriminate);
  Py_TYPE := type_of;
  tp_name := name_of;
  PyTuple_items := items_of;
  PyUnicode_AsUTF8 := text_of;
  PyUnicode_FromString := fun _ => 70;
  PyObject_IsInstance := isinstance;
  PyObject_Call := call;
  PyUFuncOverride_GetNonDefaultArrayUfunc := array_ufunc_of;
  npy_cache_import_runtime := fun w => (w, Some 50);
  NPY_MAXARGS := 64
|}.

(* the same interpreter when the message formatter cannot be imported *)
Definition python_without_formatter : CPython := {|
  World := nat;
  Py_None := 1;
  Py_NotImplemented := 2;
  NoValue := 3;
  Py_None_not_NULL := ltac:(discriminate);
  Py_NotImplemented_not_NULL := ltac:(discriminate);
  Py_TYPE := type_of;
  tp_name := name_of;
  PyTuple_items := items_of;
  PyUnicode_AsUTF8 := text_of;
  PyUnicode_FromString := fun _ => 70;
  PyObject_IsInstance := isinstance;
  PyObject_Call := call;
  PyUFuncOverride_GetNonDefaultArrayUfunc := array_ufunc_of;
  npy_cache_import_runtime := fun w => (w, None);
  NPY_MAXARGS := 64
|}.

End Example.

(** ** Vocabulary of the further properties *)

Section Further_vocabulary.
Context `{CPython}.

(* how often the pointer [o] occurs in an array *)
Definition occurrences (o : ptr) (l : list ptr) : nat :=
  length (filter (fun p => p = o) l).

(* the number of entries of the keyword table that a method name selects
   (lines 364-366, 372-373, 379-380); the other methods have no table *)
Definition positional_limit (method : string) : option nat :=
  if String.eqb method "reduce" then Some (length reduce_keywords)
  else if String.eqb method "accumulate" then Some (length accumulate_keywords)
  else if String.eqb method "reduceat" then Some (length reduceat_keywords)
  else None.

(* no remaining candidate has a type that derives from the type of another *)
Definition unrelated (slots : list ptr) : Prop :=
  forall a b, a ∈ slots -> b ∈ slots -> a <> NULL -> b <> NULL ->
    ~ strictly_derived b a.

(* slot i is the leftmost slot that still holds a candidate *)
Definition first_remaining (slots : list ptr) (i : nat) : Prop :=
  (exists obj, slots !! i = Some obj /\ obj <> NULL)
  /\ forall i', (i' < i)%nat -> slots !! i' = Some NULL.

(* the operands with a handler among the queried ones *)
Definition answered (queries : list (ptr * ptr)) : list ptr :=
  map fst (filter (fun q : ptr * ptr => q.2 <> NULL) queries).

(* the invocation returned Py_NotImplemented *)
Definition declined (c : invocation) : bool :=
  N.eqb (inv_ret c) Py_NotImplemented.

(* the run left the loop at line 474: handlers were invoked, every one of
   them declined, and no formatter was called *)
Definition left_at_import (r : run) : bool :=
  match run_calls r, run_report r with
  | _ :: _, None => forallb declined (run_calls r)
  | _, _ => false
  end.

End Further_vocabulary.

(** ** A second interpreter, for the further properties

    Types: 10 plain array, 11 [A], 12 [B] (derived from [A]), 13 [C]
    ([__array_ufunc__ = None]), 14 [D], 16 [F]; objects 20..26 are
    instances.  The handlers of [A], [B] and [D] decline, that of [F]
    returns object 88. *)
Module Cases.

Definition type_of (o : ptr) : ptr :=
  match o with
  | 21 => 11 | 22 => 12 | 23 => 13 | 24 => 14 | 26 => 16
  | _ => 10
  end.

Definition name_of (t : ptr) : string :=
  match t with
  | 11 => "A" | 12 => "B" | 13 => "C" | 14 => "D" | 16 => "F"
  | _ => "numpy.ndarray"
  end.

Definition array_ufunc_of (o : ptr) : ptr :=
  match type_of o with
  | 11 => 31 | 12 => 32 | 13 => 1 | 14 => 34 | 16 => 36
  | _ => NULL
  end.

Definition isinstance (inst cls : ptr) : Z :=
  if N.eqb (type_of inst) cls then 1%Z
  else if N.eqb (type_of inst) 12 && N.eqb cls 11 then 1%Z
  else 0%Z.

Definition items_of (t : ptr) : list ptr :=
  match t with
  | 40 => [21; 22]          (* (a, b) *)
  | 41 => [24; NULL; 21]    (* (d, <NULL item>, a) *)
  | 42 => [24; 20; 26]      (* (d, x, f) *)
  | 43 => [20]              (* (x,) *)
  | 44 => [26; 21]          (* (f, a) *)
  | 45 => [24; 23]          (* (d, c) *)
  | 60 => [62; 63]          (* kwnames ("axis", "out") *)
  | 61 => [64]              (* kwnames ("initial",) *)
  | _ => []
  end.

Definition text_of (u : ptr) : string :=
  match u with
  | 62 => "axis"
  | 63 => "out"
  | 64 => "initial"
  | _ => "dtype"
  end.

Definition call (w : nat) (callee : ptr) (args : list ptr)
    (kwds : gmap string ptr) : nat * ptr :=
  (S w,
   match callee with
   | 31 | 32 | 34 => 2
   | 36 => 88
   | 50 => 51
   | _ => NULL
   end).

Definition python : CPython := {|
  World := nat;
  Py_None := 1;
  Py_NotImplemented := 2;
  NoValue := 3;
  Py_None_not_NULL := ltac:(discriminate);
  Py_NotImplemented_not_NULL := ltac:(discriminate);
  Py_TYPE := type_of;
  tp_name := name_of;
  PyTuple_items := items_of;
  PyUnicode_AsUTF8 := text_of;
  PyUnicode_FromString := fun _ => 70;
  PyObject_IsInstance := isinstance;
  PyObject_Call := call;
  PyUFuncOverride_GetNonDefaultArrayUfunc := array_ufunc_of;
  npy_cache_import_runtime := fun w => (w, Some 50);
  NPY_MAXARGS := 64
|}.

End Cases.

(** ** An interpreter with many types

    Objects 100..164 are one instance each of the 65 types 200..264, every
    one with a handler of its own (300..364) that declines.  Tuple 41 holds
    the first 64 objects, tuple 40 all 65. *)
Module Wide.

Definition type_of (o : ptr) : ptr := o + 100.

Definition array_ufunc_of (o : ptr) : ptr :=
  if (100 <=? o) && (o <? 165) then o + 200 else NULL.

Definition items_of (t : ptr) : list ptr :=
  match t with
  | 40 => map N.of_nat (seq 100 65)
  | 41 => map N.of_nat (seq 100 64)
  | _ => []
  end.

Definition isinstance (inst cls : ptr) : Z :=
  if N.eqb (type_of inst) cls then 1%Z else 0%Z.

Definition call (w : nat) (callee : ptr) (args : list ptr)
    (kwds : gmap string ptr) : nat * ptr :=
  (S w, match callee with 50 => 51 | _ => 2 end).

Definition python : CPython := {|
  World := nat;
  Py_None := 1;
  Py_NotImplemented := 2;
  NoValue := 3;
  Py_None_not_NULL := ltac:(discriminate);
  Py_NotImplemented_not_NULL := ltac:(discriminate);
  Py_TYPE := type_of;
  tp_name := fun _ => "T";
  PyTuple_items := items_of;
  PyUnicode_AsUTF8 := fun _ => "dtype";
  PyUnicode_FromString := fun _ => 70;
  PyObject_IsInstance := isinstance;
  PyObject_Call := call;
  PyUFuncOverride_GetNonDefaultArrayUfunc := array_ufunc_of;
  npy_cache_import_runtime := fun w => (w, Some 50);
  NPY_MAXARGS := 64
|}.

End Wide.

(** * Properties *)

(** ** The parameter normalizer *)

Section NormalizerProperties.
Context `{CPython}.

Lemma normalize_signature_keyword_lookup (m : gmap string ptr) (v : ptr) :
  m !! "sig" = Some v ->
  normalize_signature_keyword m = delete "sig" (<["signature" := v]> m).
Proof. intros Hsig. unfold normalize_signature_keyword. by rewrite Hsig. Qed.

(** Claim C7.  Under the method name [__call__] or [outer], a dictionary
    that holds the key [sig] with value [v] is normalized to a dictionary
    that holds [signature] with the same value [v] and no longer holds
    [sig]; every other key keeps its entry.  (The code does not need
    [signature] to be absent beforehand: an old entry would be overwritten.) *)
Theorem sig_renamed_to_signature (method : string) (args : list ptr)
    (len_args : nat) (m : gmap string ptr) (v : ptr) :
  method = "__call__" \/ method = "outer" ->
  m !! "sig" = Some v ->
  exists m',
    normalize_by_method method args len_args m = Ok m'
    /\ m' !! "signature" = Some v
    /\ m' !! "sig" = None
    /\ forall k, k <> "sig" -> k <> "signature" -> m' !! k = m !! k.
Proof.
  intros Hmethod Hsig.
  exists (delete "sig" (<["signature" := v]> m)). split.
  - unfold normalize_by_method.
    destruct Hmethod as [-> | ->]; cbn;
      by rewrite (normalize_signature_keyword_lookup m v Hsig).
  - split; [| split].
    + rewrite lookup_delete_ne by discriminate. apply lookup_insert_eq.
    + apply lookup_delete_eq.
    + intros k Hk1 Hk2.
      rewrite lookup_delete_ne by congruence.
      by rewrite lookup_insert_ne by congruence.
Qed.

(** Claim C6.  For [reduce] with the positional arguments
    [(a, axis, dtype, out, keepdims, initial = _NoValue, where)], no keyword
    names and no output tuple, the normalized dictionary holds [axis],
    [dtype], [keepdims] and [where] with the values passed, and holds neither
    [initial] (its value is the no-value sentinel) nor [out].  Slot 0 is the
    input operand and slot 3 is [out]; both have a NULL keyword in the table
    of line 364. *)
Theorem reduce_positional_normalized (a axis dtype out keepdims where_ : ptr) :
  exists kw,
    normalize_ufunc_arguments "reduce" NULL
      [a; axis; dtype; out; keepdims; NoValue; where_] 7 NULL = Ok kw
    /\ kw !! "axis" = Some axis
    /\ kw !! "dtype" = Some dtype
    /\ kw !! "keepdims" = Some keepdims
    /\ kw !! "where" = Some where_
    /\ kw !! "initial" = None
    /\ kw !! "out" = None.
Proof.
  eexists. split.
  - unfold normalize_ufunc_arguments, initialize_normal_kwds. cbn.
    rewrite lookup_empty. unfold normalize_by_method. cbn.
    unfold copy_positional_args_to_kwargs. cbn. rewrite N.eqb_refl. cbn. reflexivity.
  - repeat split; by simplify_map_eq.
Qed.
End NormalizerProperties.

(** ** The candidate collector *)

Section CollectorProperties.
Context `{CPython}.

(** The list that the model scans is the sequence of operands that the
    index arithmetic of lines 64-77 visits. *)
Lemma scanned_operands_length (in_args out_args wheremask_obj : ptr) :
  length (scanned_operands in_args out_args wheremask_obj)
  = (narg in_args + nout out_args + nwhere wheremask_obj)%nat.
Proof.
  unfold scanned_operands, narg, nout, nwhere. rewrite !length_app.
  destruct (N.eqb out_args NULL), (N.eqb wheremask_obj NULL); cbn; lia.
Qed.

Lemma scanned_operands_lookup (in_args out_args wheremask_obj : ptr) (i : nat) :
  (i < narg in_args + nout out_args + nwhere wheremask_obj)%nat ->
  scanned_operands in_args out_args wheremask_obj !! i
  = Some (operand_at in_args out_args wheremask_obj i).
Proof.
  intros Hi. unfold scanned_operands, operand_at, narg, nout, nwhere in *.
  destruct (Nat.ltb_spec i (length (PyTuple_items in_args))) as [Hin | Hin].
  { rewrite lookup_app_l by done.
    by destruct (nth_lookup_or_length (PyTuple_items in_args) i NULL); [| lia]. }
  rewrite lookup_app_r by done.
  destruct (N.eqb out_args NULL).
  - rewrite Nat.add_0_r in *.
    destruct (Nat.ltb_spec i (length (PyTuple_items in_args))); [lia |].
    destruct (N.eqb wheremask_obj NULL); cbn in *; [lia |].
    by replace (i - length (PyTuple_items in_args))%nat with 0%nat by lia.
  - destruct (Nat.ltb_spec i (length (PyTuple_items in_args)
                               + length (PyTuple_items out_args))) as [Hout | Hout].
    + rewrite lookup_app_l by lia.
      by destruct (nth_lookup_or_length (PyTuple_items out_args)
                     (i - length (PyTuple_items in_args)) NULL); [| lia].
    + rewrite lookup_app_r by lia.
      destruct (N.eqb wheremask_obj NULL); cbn in *; [lia |].
      by replace (i - length (PyTuple_items in_args)
                  - length (PyTuple_items out_args))%nat with 0%nat by lia.
Qed.

Lemma new_class_true (obj : ptr) (with_override : list ptr) :
  new_class obj with_override = true <->
  Py_TYPE obj ∉ map Py_TYPE with_override.
Proof.
  unfold new_class. rewrite negb_true_iff, <- not_true_iff_false, existsb_exists.
  split.
  - intros Hno Hin. apply list_elem_of_fmap in Hin as (seen & Heq & Hin).
    apply Hno. exists seen. split; [by apply list_elem_of_In |].
    by apply N.eqb_eq.
  - intros Hno (seen & Hin & Heq). apply Hno.
    apply N.eqb_eq in Heq. rewrite Heq.
    apply list_elem_of_fmap. exists seen. split; [done |].
    by apply list_elem_of_In.
Qed.

Lemma collector_inv_nil : collector_inv [] [] [].
Proof.
  split; try done; try constructor.
  - cbn. lia.
  - intros obj Hin. by apply elem_of_nil in Hin.
Qed.

(* an operand that is passed over *)
Lemma collector_inv_skip (visited wo ms : list ptr) (obj : ptr) :
  collector_inv visited wo ms ->
  Py_TYPE obj ∈ map Py_TYPE wo
  \/ PyUFuncOverride_GetNonDefaultArrayUfunc obj = NULL ->
  collector_inv (visited ++ [obj]) wo ms.
Proof.
  intros [Hlength Hbound Hnotnull Htypes Hmethods Hcovered Hfirstocc] Hobj.
  split; try done.
  - apply Forall_app. split; [done |]. by constructor.
  - intros c Hc. destruct (Hfirstocc c Hc) as (k & Hk & Hfirst).
    exists k. split.
    + by apply lookup_app_l_Some.
    + intros k' obj' Hlt Hk' Hty. apply (Hfirst k' obj'); [done | | done].
      apply lookup_lt_Some in Hk.
      by rewrite lookup_app_l in Hk' by lia.
Qed.

(* an operand that is stored as a new candidate *)
Lemma collector_inv_store (visited wo ms : list ptr) (obj : ptr) :
  collector_inv visited wo ms ->
  obj <> NULL ->
  Py_TYPE obj ∉ map Py_TYPE wo ->
  PyUFuncOverride_GetNonDefaultArrayUfunc obj <> NULL ->
  PyUFuncOverride_GetNonDefaultArrayUfunc obj <> Py_None ->
  (length wo < NPY_MAXARGS)%nat ->
  collector_inv (visited ++ [obj]) (wo ++ [obj])
    (ms ++ [PyUFuncOverride_GetNonDefaultArrayUfunc obj]).
Proof.
  intros [Hlength Hbound Hnotnull Htypes Hmethods Hcovered Hfirstocc]
    Hnull Hnew Hm1 Hm2 Hlt.
  split.
  - rewrite !length_app. cbn. lia.
  - rewrite length_app. cbn. lia.
  - apply Forall_app. split; [done |]. by constructor.
  - rewrite map_app. apply NoDup_app. split; [done |]. split.
    + intros t Ht Ht'. cbn in Ht'. apply list_elem_of_singleton in Ht'. by subst.
    + cbn. apply NoDup_singleton.
  - apply Forall2_app; [done |]. by repeat constructor.
  - apply Forall_app. split.
    + eapply Forall_impl; [exact Hcovered |].
      intros o [Ho | Ho]; [left | by right].
      rewrite map_app. apply elem_of_app. by left.
    + constructor; [| constructor]. left. rewrite map_app.
      apply elem_of_app. right. cbn. apply list_elem_of_singleton. done.
  - intros c Hc. apply elem_of_app in Hc as [Hc | Hc].
    + destruct (Hfirstocc c Hc) as (k & Hk & Hfirst).
      exists k. split; [by apply lookup_app_l_Some |].
      intros k' obj' Hlt' Hk' Hty. apply (Hfirst k' obj'); [done | | done].
      apply lookup_lt_Some in Hk.
      by rewrite lookup_app_l in Hk' by lia.
    + apply list_elem_of_singleton in Hc as ->.
      exists (length visited). split.
      * rewrite lookup_app_r by lia. by rewrite Nat.sub_diag.
      * intros k' obj' Hlt' Hk' Hty.
        rewrite lookup_app_l in Hk' by lia.
        eapply Forall_lookup_1 in Hcovered; [| exact Hk'].
        destruct Hcovered as [Hin | Hq]; [| done].
        rewrite Hty in Hin. contradiction.
Qed.

Lemma scan_operands_inv (operands visited wo ms wo' ms' : list ptr) :
  collector_inv visited wo ms ->
  scan_result (scan_operands operands wo ms) = Overrides wo' ms' ->
  collector_inv (visited ++ operands) wo' ms'.
Proof.
  revert visited wo ms.
  induction operands as [| obj operands IH]; intros visited wo ms Hinv Hres.
  - cbn in Hres. injection Hres as <- <-. by rewrite app_nil_r.
  - replace (visited ++ obj :: operands) with ((visited ++ [obj]) ++ operands)
      by (by rewrite <- app_assoc).
    cbn [scan_operands] in Hres.
    destruct (N.eqb obj NULL) eqn:Hnull; [discriminate |].
    apply N.eqb_neq in Hnull.
    destruct (new_class obj wo) eqn:Hnew.
    + apply new_class_true in Hnew.
      destruct (N.eqb (PyUFuncOverride_GetNonDefaultArrayUfunc obj) NULL) eqn:Hm.
      { apply N.eqb_eq in Hm. cbn in Hres.
        eapply IH; [| exact Hres]. apply collector_inv_skip; auto. }
      apply N.eqb_neq in Hm.
      destruct (N.eqb (PyUFuncOverride_GetNonDefaultArrayUfunc obj) Py_None) eqn:Hn;
        [discriminate |].
      apply N.eqb_neq in Hn.
      destruct (NPY_MAXARGS <=? length wo)%nat eqn:Hmax; [discriminate |].
      apply Nat.leb_gt in Hmax. cbn in Hres.
      eapply IH; [| exact Hres]. by apply collector_inv_store.
    + eapply IH; [| exact Hres]. apply collector_inv_skip; [done |].
      left. apply not_true_iff_false in Hnew.
      rewrite new_class_true in Hnew. by apply dec_stable in Hnew.
Qed.

Lemma scan_never_overflows (operands wo ms : list ptr) :
  (length wo + length operands <= NPY_MAXARGS)%nat ->
  scan_result (scan_operands operands wo ms) <> Overflow.
Proof.
  revert wo ms. induction operands as [| obj operands IH]; intros wo ms Hlen.
  - discriminate.
  - cbn [scan_operands]. cbn in Hlen.
    destruct (N.eqb obj NULL); [discriminate |].
    destruct (new_class obj wo); [| apply IH; lia].
    destruct (N.eqb _ NULL); [cbn; apply IH; lia |].
    destruct (N.eqb _ Py_None); [discriminate |].
    destruct (NPY_MAXARGS <=? length wo)%nat eqn:Hmax.
    + apply Nat.leb_le in Hmax. lia.
    + cbn. apply IH. rewrite length_app. cbn. lia.
Qed.

(** Property X26.  The caller's side of the bound: a ufunc whose operands, mask
    included, are at most [NPY_MAXARGS] never makes the collector store past the
    end of its arrays. *)
Lemma collector_within_bounds (in_args out_args wheremask_obj : ptr) :
  (length (scanned_operands in_args out_args wheremask_obj) <= NPY_MAXARGS)%nat ->
  scan_result (get_array_ufunc_overrides in_args out_args wheremask_obj)
  <> Overflow.
Proof. intros Hlen. by apply scan_never_overflows. Qed.

(** Operands without a handler leave the arrays empty. *)
Lemma no_handler_no_candidates (operands : list ptr) :
  Forall (fun obj => obj <> NULL
                     /\ PyUFuncOverride_GetNonDefaultArrayUfunc obj = NULL)
    operands ->
  scan_result (scan_operands operands [] []) = Overrides [] [].
Proof.
  induction 1 as [| obj operands [Hnull Hquery] _ IH]; [done |].
  cbn [scan_operands]. apply N.eqb_neq in Hnull. rewrite Hnull.
  cbn [new_class existsb negb]. rewrite Hquery.
  change (N.eqb NULL NULL) with true. cbn. exact IH.
Qed.


Lemma held_app (l1 l2 : list ref_event) (o : ptr) :
  held (l1 ++ l2) o = (held l1 o + held l2 o)%Z.
Proof.
  induction l1 as [| [] l1 IH]; cbn; rewrite ?IH; lia.
Qed.

Lemma acquire_release_balanced (wo ms : list ptr) (o : ptr) :
  (held (acquire_overrides wo ms) o + held (release_overrides wo ms) o = 0)%Z.
Proof.
  unfold acquire_overrides, release_overrides.
  induction (zip wo ms) as [| [obj method] l IH]; cbn; [done |].
  destruct (N.eqb method o), (N.eqb obj o); lia.
Qed.

Lemma acquire_overrides_snoc (wo ms : list ptr) (obj method : ptr) :
  length wo = length ms ->
  acquire_overrides (wo ++ [obj]) (ms ++ [method])
  = acquire_overrides wo ms ++ [New_reference method; Py_INCREF obj].
Proof.
  intros Hlen. unfold acquire_overrides.
  rewrite zip_with_app by done. rewrite flat_map_app. cbn. done.
Qed.

(* when the scan fails, what it acquired has been given back *)
Lemma scan_error_balanced (operands wo ms : list ptr) (e : exception) (o : ptr) :
  length wo = length ms ->
  scan_result (scan_operands operands wo ms) = Collect_error e ->
  (held (acquire_overrides wo ms) o
   + held (scan_refs (scan_operands operands wo ms)) o = 0)%Z.
Proof.
  revert wo ms. induction operands as [| obj operands IH]; intros wo ms Hlen Hres.
  - discriminate.
  - cbn [scan_operands] in *.
    destruct (N.eqb obj NULL).
    { cbn. apply acquire_release_balanced. }
    destruct (new_class obj wo); [| by apply IH].
    destruct (N.eqb _ NULL); [cbn in *; by apply IH |].
    destruct (N.eqb _ Py_None).
    { cbn [scan_refs held]. rewrite N.eqb_refl || idtac.
      pose proof (acquire_release_balanced wo ms o).
      destruct (N.eqb _ o); lia. }
    destruct (NPY_MAXARGS <=? length wo)%nat; [discriminate |].
    cbn [scan_refs scan_result] in *.
    specialize (IH (wo ++ [obj]) (ms ++ [PyUFuncOverride_GetNonDefaultArrayUfunc obj])).
    rewrite acquire_overrides_snoc, held_app in IH by done.
    cbn [held] in *. rewrite !length_app in IH. cbn in IH.
    specialize (IH ltac:(lia) Hres). lia.
Qed.

(* the query that answers None is the last one, and decides the result *)
Lemma scan_disabled (operands wo ms : list ptr) (obj : ptr) :
  (obj, Py_None) ∈ scan_queries (scan_operands operands wo ms) ->
  scan_result (scan_operands operands wo ms)
  = Collect_error (TypeError (unsupported_message obj))
  /\ exists earlier,
       scan_queries (scan_operands operands wo ms) = earlier ++ [(obj, Py_None)].
Proof.
  revert wo ms. induction operands as [| o operands IH]; intros wo ms Hin.
  - by apply elem_of_nil in Hin.
  - cbn [scan_operands] in *.
    destruct (N.eqb o NULL); [by apply elem_of_nil in Hin |].
    destruct (new_class o wo); [| by apply IH].
    destruct (N.eqb _ NULL) eqn:Hm.
    { cbn in *. apply N.eqb_eq in Hm.
      apply elem_of_cons in Hin as [Heq | Hin].
      - injection Heq as -> Hnone. rewrite Hm in Hnone.
        by destruct Py_None_not_NULL.
      - destruct (IH _ _ Hin) as (Hres & earlier & Hq). split; [done |].
        exists ((o, PyUFuncOverride_GetNonDefaultArrayUfunc o) :: earlier).
        by rewrite Hq. }
    destruct (N.eqb _ Py_None) eqn:Hn.
    { cbn in *. apply list_elem_of_singleton in Hin. injection Hin as -> _.
      split; [done |]. exists []. cbn. apply N.eqb_eq in Hn. by rewrite Hn. }
    apply N.eqb_neq in Hn.
    destruct (NPY_MAXARGS <=? length wo)%nat.
    { cbn in Hin. apply list_elem_of_singleton in Hin. injection Hin as _ Hnone.
      congruence. }
    cbn in *. apply elem_of_cons in Hin as [Heq | Hin].
    + injection Heq as _ Hnone. congruence.
    + destruct (IH _ _ Hin) as (Hres & earlier & Hq). split; [done |].
      exists ((o, PyUFuncOverride_GetNonDefaultArrayUfunc o) :: earlier).
      by rewrite Hq.
Qed.

(** When the query depends on the type only, an operand whose
    [__array_ufunc__] is None cannot hide behind a candidate of its type:
    the scan of well-formed operands reaches such an operand and queries
    it. *)
Lemma disabled_operand_is_queried (operands wo ms : list ptr) :
  (forall a b, Py_TYPE a = Py_TYPE b ->
     PyUFuncOverride_GetNonDefaultArrayUfunc a
     = PyUFuncOverride_GetNonDefaultArrayUfunc b) ->
  Forall (fun obj => obj <> NULL) operands ->
  Forall (fun c => PyUFuncOverride_GetNonDefaultArrayUfunc c <> Py_None) wo ->
  (length wo + length operands <= NPY_MAXARGS)%nat ->
  (exists obj, obj ∈ operands
     /\ PyUFuncOverride_GetNonDefaultArrayUfunc obj = Py_None) ->
  exists obj, obj ∈ operands
    /\ (obj, Py_None) ∈ scan_queries (scan_operands operands wo ms).
Proof.
  intros Htype. revert wo ms.
  induction operands as [| o operands IH];
    intros wo ms Hnull Hwo Hlen (obj & Hin & Hnone).
  { by apply elem_of_nil in Hin. }
  apply Forall_cons in Hnull as [Ho Hnull]. cbn in Hlen.
  cbn [scan_operands]. apply N.eqb_neq in Ho. rewrite Ho.
  assert (Hrest : PyUFuncOverride_GetNonDefaultArrayUfunc o <> Py_None ->
            exists obj, obj ∈ operands
              /\ PyUFuncOverride_GetNonDefaultArrayUfunc obj = Py_None).
  { intros Hne. apply elem_of_cons in Hin as [-> | Hin]; [done |].
    by exists obj. }
  destruct (new_class o wo) eqn:Hnew.
  - destruct (N.eqb (PyUFuncOverride_GetNonDefaultArrayUfunc o) NULL) eqn:Hm.
    { apply N.eqb_eq in Hm.
      destruct (IH wo ms Hnull Hwo ltac:(lia)) as (obj' & Hin' & Hq').
      { apply Hrest. rewrite Hm. intros Heq. by apply Py_None_not_NULL. }
      exists obj'. split; [by apply elem_of_cons; right |].
      cbn. by apply elem_of_cons; right. }
    destruct (N.eqb (PyUFuncOverride_GetNonDefaultArrayUfunc o) Py_None) eqn:Hn.
    { apply N.eqb_eq in Hn. exists o. split; [by apply elem_of_cons; left |].
      cbn. rewrite Hn. by apply list_elem_of_singleton. }
    apply N.eqb_neq in Hn.
    destruct (NPY_MAXARGS <=? length wo)%nat eqn:Hmax;
      [apply Nat.leb_le in Hmax; lia |].
    destruct (IH (wo ++ [o]) (ms ++ [PyUFuncOverride_GetNonDefaultArrayUfunc o])
                Hnull) as (obj' & Hin' & Hq').
    + apply Forall_app. split; [done |]. by constructor.
    + rewrite length_app. cbn. lia.
    + by apply Hrest.
    + exists obj'. split; [by apply elem_of_cons; right |].
      cbn. by apply elem_of_cons; right.
  - apply not_true_iff_false in Hnew. rewrite new_class_true in Hnew.
    apply dec_stable in Hnew.
    apply list_elem_of_fmap in Hnew as (c & Hty & Hc).
    destruct (IH wo ms Hnull Hwo ltac:(lia)) as (obj' & Hin' & Hq').
    { apply Hrest. rewrite (Htype o c Hty).
      apply list_elem_of_lookup in Hc as [j Hj].
      by eapply Forall_lookup_1 in Hwo. }
    exists obj'. split; [by apply elem_of_cons; right | done].
Qed.

(** The log holds the answers of the query. *)
Lemma scan_queries_answers (operands wo ms : list ptr) (obj method : ptr) :
  (obj, method) ∈ scan_queries (scan_operands operands wo ms) ->
  obj ∈ operands /\ method = PyUFuncOverride_GetNonDefaultArrayUfunc obj.
Proof.
  revert wo ms. induction operands as [| o operands IH]; intros wo ms Hq.
  { by apply elem_of_nil in Hq. }
  assert (Hcons : forall wo' ms',
            (obj, method) ∈ (o, PyUFuncOverride_GetNonDefaultArrayUfunc o)
                             :: scan_queries (scan_operands operands wo' ms') ->
            obj ∈ o :: operands
            /\ method = PyUFuncOverride_GetNonDefaultArrayUfunc obj).
  { intros wo' ms' Hin. apply elem_of_cons in Hin as [[= -> ->] | Hin].
    - split; [by apply elem_of_cons; left | done].
    - destruct (IH _ _ Hin). split; [by apply elem_of_cons; right | done]. }
  cbn [scan_operands] in Hq.
  destruct (N.eqb o NULL); [by apply elem_of_nil in Hq |].
  destruct (new_class o wo).
  - destruct (N.eqb (PyUFuncOverride_GetNonDefaultArrayUfunc o) NULL);
      [by eapply Hcons |].
    destruct (N.eqb (PyUFuncOverride_GetNonDefaultArrayUfunc o) Py_None).
    { apply (Hcons [] []). cbn in Hq. apply list_elem_of_singleton in Hq.
      rewrite Hq. by apply elem_of_cons; left. }
    destruct (NPY_MAXARGS <=? length wo)%nat; [| by eapply Hcons].
    apply (Hcons [] []). cbn in Hq. apply list_elem_of_singleton in Hq.
    rewrite Hq. by apply elem_of_cons; left.
  - destruct (IH _ _ Hq). split; [by apply elem_of_cons; right | done].
Qed.

(** Claim C2.  If the capability query of some scanned operand [obj]
    returns [Py_None], the call fails with the TypeError
    "operand '<type of obj>' does not support ufuncs (__array_ufunc__=None)";
    that query is the last one made; no handler and no formatter is called
    and the interpreter state is untouched, whatever the operands after
    [obj] would have supplied; and every reference that the collector had
    acquired has been released: the ledger is balanced for every object. *)
Theorem disabled_operand_fails (ufunc : ptr) (method : string)
    (in_args out_args wheremask_obj : ptr) (args : list ptr) (len_args : nat)
    (kwnames : ptr) (w : World) (obj : ptr) :
  let r := PyUFunc_CheckOverride ufunc method in_args out_args wheremask_obj
             args len_args kwnames w in
  (obj, Py_None) ∈ run_queries r ->
  run_outcome r = Failure (TypeError (unsupported_message obj))
  /\ run_calls r = []
  /\ run_report r = None
  /\ run_world r = w
  /\ (exists earlier, run_queries r = earlier ++ [(obj, Py_None)])
  /\ forall o, held (run_refs r) o = 0%Z.
Proof.
  intros r Hin.
  assert (Hq : run_queries r
               = scan_queries (get_array_ufunc_overrides in_args out_args wheremask_obj)).
  { unfold r, PyUFunc_CheckOverride.
    destruct (scan_result _) as [[| ? ?] ? | |]; try done.
    by destruct (normalize_ufunc_arguments _ _ _ _ _). }
  rewrite Hq in Hin. unfold get_array_ufunc_overrides in Hin.
  destruct (scan_disabled _ _ _ _ Hin) as (Hres & earlier & Hearlier).
  pose proof (fun o => scan_error_balanced _ [] [] _ o eq_refl Hres) as Hbal.
  unfold r, PyUFunc_CheckOverride, get_array_ufunc_overrides in *.
  rewrite Hres. cbn.
  split; [done |]. split; [done |]. split; [done |]. split; [done |].
  split; [by exists earlier |].
  intros o. specialize (Hbal o). cbn in Hbal. lia.
Qed.

End CollectorProperties.

(** ** The selection rule *)

Section SelectionProperties.
Context `{CPython}.

Lemma subtype_to_the_right_true (obj : ptr) (others : list ptr) :
  subtype_to_the_right obj others = true <->
  exists j other,
    others !! j = Some other /\ other <> NULL /\ strictly_derived other obj.
Proof.
  unfold subtype_to_the_right, strictly_derived. rewrite existsb_exists. split.
  - intros (other & Hin & Htest).
    apply andb_prop in Htest as [Htest Hinst].
    apply andb_prop in Htest as [Hnull Hty].
    apply negb_true_iff in Hnull, Hty, Hinst.
    apply N.eqb_neq in Hnull, Hty. apply Z.eqb_neq in Hinst.
    apply list_elem_of_In, list_elem_of_lookup in Hin as [j Hj].
    by exists j, other.
  - intros (j & other & Hj & Hnull & Hty & Hinst).
    exists other. split.
    + apply list_elem_of_In, list_elem_of_lookup. by exists j.
    + apply N.eqb_neq in Hnull, Hty. apply Z.eqb_neq in Hinst.
      by rewrite Hnull, Hty, Hinst.
Qed.

Lemma disqualified_head (obj : ptr) (others : list ptr) :
  disqualified (obj :: others) 0 <-> subtype_to_the_right obj others = true.
Proof.
  rewrite subtype_to_the_right_true. unfold disqualified. split.
  - intros (j & obj' & other & Hobj & Hlt & Hj & Hne & Hder).
    cbn in Hobj. injection Hobj as <-.
    destruct j as [| j]; [lia |]. cbn in Hj. by exists j, other.
  - intros (j & other & Hj & Hne & Hder). exists (S j), obj, other.
    split; [done |]. split; [lia |]. by split.
Qed.

Lemma disqualified_tail (obj : ptr) (others : list ptr) (n : nat) :
  disqualified (obj :: others) (S n) <-> disqualified others n.
Proof.
  unfold disqualified. split.
  - intros (j & o & other & Ho & Hlt & Hj & Hrest).
    destruct j as [| j]; [lia |]. cbn in Ho, Hj. exists j, o, other.
    split; [done |]. split; [lia |]. by split.
  - intros (j & o & other & Ho & Hlt & Hj & Hrest).
    exists (S j), o, other. split; [done |]. split; [lia |]. by split.
Qed.

Lemma selectable_tail (obj : ptr) (others : list ptr) (n : nat) :
  selectable (obj :: others) (S n) <-> selectable others n.
Proof. unfold selectable. by rewrite disqualified_tail. Qed.

Lemma first_selectable_tail (obj : ptr) (others : list ptr) (n : nat) :
  ~ selectable (obj :: others) 0 ->
  first_selectable others n -> first_selectable (obj :: others) (S n).
Proof.
  intros Hhead [Hsel Hfirst]. split; [by apply selectable_tail |].
  intros [| i'] Hlt; [done |].
  rewrite selectable_tail. apply Hfirst. lia.
Qed.

Lemma choose_from_first_selectable (slots : list ptr) (i k : nat) :
  choose_from i slots = Some k ->
  (i <= k)%nat /\ first_selectable slots (k - i).
Proof.
  revert i. induction slots as [| obj others IH]; intros i Hk; [done |].
  cbn [choose_from] in Hk.
  destruct (N.eqb obj NULL) eqn:Hnull.
  { apply N.eqb_eq in Hnull. destruct (IH _ Hk) as [Hle Hfirst].
    split; [lia |]. replace (k - i)%nat with (S (k - S i)) by lia.
    apply first_selectable_tail; [| done].
    intros [(o & Ho & Hne) _]. cbn in Ho. congruence. }
  apply N.eqb_neq in Hnull.
  destruct (subtype_to_the_right obj others) eqn:Hsub.
  { destruct (IH _ Hk) as [Hle Hfirst].
    split; [lia |]. replace (k - i)%nat with (S (k - S i)) by lia.
    apply first_selectable_tail; [| done].
    intros [_ Hno]. by apply Hno, disqualified_head. }
  injection Hk as <-. split; [lia |]. rewrite Nat.sub_diag.
  split; [| lia]. split; [by exists obj |].
  rewrite disqualified_head. congruence.
Qed.

Lemma choose_from_none (slots : list ptr) (i : nat) :
  choose_from i slots = None -> Forall (fun obj => obj = NULL) slots.
Proof.
  revert i. induction slots as [| obj others IH]; intros i Hnone; [done |].
  cbn [choose_from] in Hnone.
  destruct (N.eqb obj NULL) eqn:Hnull.
  { apply N.eqb_eq in Hnull. constructor; eauto. }
  destruct (subtype_to_the_right obj others) eqn:Hsub; [| done].
  (* a slot on the right holds an object, so the scan of the rest selects *)
  apply subtype_to_the_right_true in Hsub as (j & other & Hj & Hne & _).
  apply IH in Hnone. eapply Forall_lookup_1 in Hnone; [| exact Hj]. done.
Qed.

Lemma first_selectable_unique (slots : list ptr) (i j : nat) :
  first_selectable slots i -> first_selectable slots j -> i = j.
Proof.
  intros [Hi Hfi] [Hj Hfj].
  destruct (Nat.lt_trichotomy i j) as [Hlt | [Heq | Hlt]]; [| done |].
  - by destruct (Hfj i Hlt).
  - by destruct (Hfi j Hlt).
Qed.

(** The selection of lines 414-440 meets its description. *)
Lemma choose_first_selectable (slots : list ptr) (i : nat) :
  choose slots = Some i <-> first_selectable slots i.
Proof.
  unfold choose. split.
  - intros Hi. apply choose_from_first_selectable in Hi as [_ Hi].
    by rewrite Nat.sub_0_r in Hi.
  - intros Hi. destruct (choose_from 0 slots) as [k |] eqn:Hk.
    + apply choose_from_first_selectable in Hk as [_ Hk].
      rewrite Nat.sub_0_r in Hk. f_equal. by eapply first_selectable_unique.
    + apply choose_from_none in Hk.
      destruct Hi as [[(obj & Hobj & Hne) _] _].
      eapply Forall_lookup_1 in Hk; [| exact Hobj]. done.
Qed.

Lemma choose_none (slots : list ptr) :
  choose slots = None <-> Forall (fun obj => obj = NULL) slots.
Proof.
  split; [apply choose_from_none |].
  intros Hall. destruct (choose slots) as [i |] eqn:Hi; [| done].
  apply choose_first_selectable in Hi as [[(obj & Hobj & Hne) _] _].
  eapply Forall_lookup_1 in Hall; [| exact Hobj]. done.
Qed.

Lemma choose_lookup (slots : list ptr) (i : nat) :
  choose slots = Some i ->
  exists obj, slots !! i = Some obj /\ obj <> NULL /\ nth i slots NULL = obj.
Proof.
  intros Hi. apply choose_first_selectable in Hi as [[(obj & Hobj & Hne) _] _].
  exists obj. repeat split; try done. by rewrite nth_lookup, Hobj.
Qed.

End SelectionProperties.

(** ** The resolution loop *)

Section LoopProperties.
Context `{CPython}.
Variables (ufunc method_name : ptr) (in_items : list ptr)
          (normal_kwds : gmap string ptr).

Lemma remaining_clear (slots : list ptr) (i : nat) (obj : ptr) :
  slots !! i = Some obj -> obj <> NULL ->
  S (remaining (<[i := NULL]> slots)) = remaining slots.
Proof.
  unfold remaining. revert i.
  induction slots as [| o slots IH]; intros i Hi Hne; [done |].
  destruct i as [| i]; cbn in Hi.
  - injection Hi as ->. cbn [insert list_insert].
    rewrite filter_cons_False by (intros Hn; by apply Hn).
    by rewrite filter_cons_True.
  - cbn [insert list_insert]. rewrite !filter_cons.
    destruct (decide (o <> NULL)); cbn; by rewrite <- (IH i).
Qed.

Lemma remaining_le_length (slots : list ptr) :
  (remaining slots <= length slots)%nat.
Proof. apply length_filter. Qed.

(** With more rounds than remaining candidates the loop function follows a
    derivation of [resolves]: it is never short of rounds. *)
Lemma resolution_loop_resolves (rounds : nat) (w : World) (wo ms : list ptr) :
  (remaining wo < rounds)%nat ->
  resolves ufunc method_name in_items normal_kwds w wo ms
    (resolution_loop ufunc method_name in_items normal_kwds rounds w wo ms).
Proof.
  revert w wo ms. induction rounds as [| rounds IH]; intros w wo ms Hlt; [lia |].
  cbn [resolution_loop].
  destruct (choose wo) as [i |] eqn:Hchoose; [| by constructor].
  destruct (PyObject_Call w _ _ _) as [w' result] eqn:Hcall.
  destruct (N.eqb result NULL) eqn:Hnull.
  { apply N.eqb_eq in Hnull as ->. by apply resolves_raised. }
  apply N.eqb_neq in Hnull.
  destruct (N.eqb result Py_NotImplemented) eqn:Hni.
  - apply N.eqb_eq in Hni as ->.
    apply resolves_declined with (w' := w'); [done | done |].
    apply IH. destruct (choose_lookup _ _ Hchoose) as (obj & Hobj & Hne & _).
    pose proof (remaining_clear _ _ _ Hobj Hne). lia.
  - apply N.eqb_neq in Hni. by apply resolves_result.
Qed.

Lemma resolves_finishes (w : World) (wo ms : list ptr) (e : loop_end) :
  resolves ufunc method_name in_items normal_kwds w wo ms e ->
  loop_outcome e <> More_rounds /\ loop_outcome e <> Undefined_behaviour.
Proof.
  induction 1; cbn; try done.
  unfold report_unhandled.
  destruct (npy_cache_import_runtime w) as [w1 [formatter |]]; [| done].
  by destruct (PyObject_Call w1 _ _ _).
Qed.

(** Short circuit: a call that does not return NotImplemented is the last. *)
Lemma resolves_stops (w : World) (wo ms : list ptr) (e : loop_end) :
  resolves ufunc method_name in_items normal_kwds w wo ms e ->
  forall k c, loop_calls e !! k = Some c -> inv_ret c <> Py_NotImplemented ->
    length (loop_calls e) = S k
    /\ loop_report e = None
    /\ loop_outcome e
       = (if N.eqb (inv_ret c) NULL then Failure Pending else Success (inv_ret c)).
Proof.
  induction 1 as [w wo ms Hch | w wo ms i w' Hch Hcall
                  | w wo ms i w' result Hch Hcall Hnull Hni
                  | w wo ms i w' rest Hch Hcall Hrest IH]; intros k c Hk Hret.
  - unfold report_unhandled in Hk.
    destruct (npy_cache_import_runtime w) as [w1 [formatter |]]; [| done].
    by destruct (PyObject_Call w1 _ _ _).
  - cbn in *. apply list_lookup_singleton_Some in Hk as [-> <-]. done.
  - cbn in *. apply list_lookup_singleton_Some in Hk as [-> <-]. cbn.
    apply N.eqb_neq in Hnull. by rewrite Hnull.
  - cbn in *. destruct k as [| k]; cbn in Hk.
    + injection Hk as <-. done.
    + destruct (IH k c Hk Hret) as (Hlen & Hrep & Hout). by rewrite Hlen.
Qed.

(** What every invocation is given. *)
Lemma resolves_arguments (w : World) (wo ms : list ptr) (e : loop_end) :
  resolves ufunc method_name in_items normal_kwds w wo ms e ->
  forall c, c ∈ loop_calls e ->
    inv_kwds c = normal_kwds
    /\ exists i obj,
         wo !! i = Some obj /\ obj <> NULL
         /\ inv_callee c = nth i ms NULL
         /\ inv_args c = obj :: ufunc :: method_name :: in_items.
Proof.
  induction 1 as [w wo ms Hch | w wo ms i w' Hch Hcall
                  | w wo ms i w' result Hch Hcall Hnull Hni
                  | w wo ms i w' rest Hch Hcall Hrest IH]; intros c Hc.
  - unfold report_unhandled in Hc.
    destruct (npy_cache_import_runtime w) as [w1 [formatter |]];
      [destruct (PyObject_Call w1 _ _ _) |]; by apply elem_of_nil in Hc.
  - cbn in Hc. apply list_elem_of_singleton in Hc as ->. cbn.
    destruct (choose_lookup _ _ Hch) as (obj & Hobj & Hne & ->).
    split; [done |]. by exists i, obj.
  - cbn in Hc. apply list_elem_of_singleton in Hc as ->. cbn.
    destruct (choose_lookup _ _ Hch) as (obj & Hobj & Hne & ->).
    split; [done |]. by exists i, obj.
  - cbn in Hc. apply elem_of_cons in Hc as [-> | Hc].
    + cbn. destruct (choose_lookup _ _ Hch) as (obj & Hobj & Hne & ->).
      split; [done |]. by exists i, obj.
    + destruct (IH c Hc) as (Hkw & j & obj & Hobj & Hne & Hcallee & Hargs).
      split; [done |]. exists j, obj.
      destruct (decide (i = j)) as [<- | Hij].
      { apply lookup_lt_Some in Hobj as Hlt. rewrite length_insert in Hlt.
        rewrite list_lookup_insert_eq in Hobj by done. congruence. }
      rewrite list_lookup_insert_ne in Hobj by done.
      rewrite nth_lookup, list_lookup_insert_ne in Hcallee by done.
      by rewrite nth_lookup.
Qed.

Lemma filter_clear {A} (P : A -> Prop) `{forall x, Decision (P x)}
    (l : list A) (i : nat) (x y : A) :
  l !! i = Some x -> P x -> ~ P y ->
  x :: filter P (<[i := y]> l) ≡ₚ filter P l.
Proof.
  revert i. induction l as [| a l IH]; intros i Hi Hx Hy; [done |].
  destruct i as [| i]; cbn in Hi.
  - injection Hi as ->. cbn [insert list_insert].
    rewrite filter_cons_False by done. by rewrite filter_cons_True.
  - cbn [insert list_insert]. rewrite !filter_cons.
    destruct (decide (P a)).
    + rewrite Permutation_swap. by rewrite (IH i).
    + by apply IH.
Qed.

Lemma filter_all_null (wo ms : list ptr) :
  Forall (fun obj => obj = NULL) wo ->
  filter (fun p : ptr * ptr => p.1 <> NULL) (zip wo ms) = [].
Proof.
  revert ms. induction wo as [| o wo IH]; intros ms Hall; [done |].
  destruct ms as [| m ms]; [done |]. cbn [zip_with].
  apply Forall_cons in Hall as [-> Hall].
  rewrite filter_cons_False by (cbn; intros Hn; by apply Hn). by apply IH.
Qed.

(** When every invocation declines, every remaining candidate is invoked
    once and the loop ends in the report of lines 463-485. *)
Lemma resolves_all_declined (w : World) (wo ms : list ptr) (e : loop_end) :
  resolves ufunc method_name in_items normal_kwds w wo ms e ->
  length wo = length ms ->
  Forall (fun c => inv_ret c = Py_NotImplemented) (loop_calls e) ->
  map candidate_of (loop_calls e)
    ≡ₚ filter (fun p : ptr * ptr => p.1 <> NULL) (zip wo ms)
  /\ match loop_report e with
     | Some c =>
         inv_args c = Py_None :: ufunc :: method_name :: in_items
         /\ inv_kwds c = normal_kwds
         /\ loop_outcome e
            = Failure (if N.eqb (inv_ret c) NULL then Pending
                       else TypeError_object (inv_ret c))
     | None => loop_outcome e = Failure Pending
     end.
Proof.
  induction 1 as [w wo ms Hch | w wo ms i w' Hch Hcall
                  | w wo ms i w' result Hch Hcall Hnull Hni
                  | w wo ms i w' rest Hch Hcall Hrest IH]; intros Hlen Hall.
  - apply choose_none in Hch. rewrite filter_all_null by done.
    unfold report_unhandled.
    destruct (npy_cache_import_runtime w) as [w1 [formatter |]];
      [| by split].
    destruct (PyObject_Call w1 _ _ _) as [w2 errmsg]. cbn.
    split; [reflexivity |]. done.
  - cbn in Hall. apply Forall_inv in Hall. cbn in Hall.
    symmetry in Hall. by apply Py_NotImplemented_not_NULL in Hall.
  - cbn in Hall. apply Forall_inv in Hall. done.
  - cbn in Hall. apply Forall_cons in Hall as [_ Hall].
    destruct IH as [Hperm Hreport]; [by rewrite !length_insert | done |].
    cbn. split; [| done].
    rewrite Hperm. unfold candidate_of at 1, inv_self. cbn.
    destruct (choose_lookup _ _ Hch) as (obj & Hobj & Hne & ->).
    rewrite <- (insert_zip_with pair).
    apply filter_clear; [| done | cbn; intros Hn; by apply Hn].
    apply lookup_zip_with_Some. exists obj, (nth i ms NULL).
    split; [done |]. split; [done |].
    apply lookup_lt_Some in Hobj. rewrite Hlen in Hobj.
    destruct (nth_lookup_or_length ms i NULL); [done | lia].
Qed.


Lemma clear_slots_length (consumed : list nat) (slots : list ptr) :
  length (clear_slots consumed slots) = length slots.
Proof.
  revert slots. induction consumed as [| i consumed IH]; intros slots; [done |].
  cbn. unfold clear_slots in IH. by rewrite IH, length_insert.
Qed.

Lemma clear_slots_lookup_other (consumed : list nat) (slots : list ptr) (i : nat) :
  i ∉ consumed -> clear_slots consumed slots !! i = slots !! i.
Proof.
  revert slots. induction consumed as [| j consumed IH]; intros slots Hi; [done |].
  apply not_elem_of_cons in Hi as [Hij Hi].
  cbn. unfold clear_slots in IH. rewrite IH by done.
  by apply list_lookup_insert_ne.
Qed.

Lemma clear_slots_lookup_consumed (consumed : list nat) (slots : list ptr) (i : nat) :
  i ∈ consumed -> (i < length slots)%nat ->
  clear_slots consumed slots !! i = Some NULL.
Proof.
  revert slots. induction consumed as [| j consumed IH]; intros slots Hi Hlt.
  - by apply elem_of_nil in Hi.
  - cbn. fold (clear_slots consumed (<[j := NULL]> slots)).
    destruct (decide (i ∈ consumed)) as [Hin | Hout].
    + apply IH; [done |]. by rewrite length_insert.
    + apply elem_of_cons in Hi as [-> | Hi]; [| done].
      rewrite clear_slots_lookup_other by done.
      by apply list_lookup_insert_eq.
Qed.

(** The rounds of a run: round k selects, by the rule of lines 414-440, in
    the array cleared of the slots that the rounds before it consumed. *)
Lemma resolves_rounds (w : World) (wo ms : list ptr) (e : loop_end) :
  resolves ufunc method_name in_items normal_kwds w wo ms e ->
  exists sel : list nat,
    length sel = length (loop_calls e)
    /\ forall k i, sel !! k = Some i ->
         choose (clear_slots (take k sel) wo) = Some i
         /\ exists c, loop_calls e !! k = Some c
              /\ inv_callee c = nth i (clear_slots (take k sel) ms) NULL
              /\ inv_self c = nth i (clear_slots (take k sel) wo) NULL.
Proof.
  induction 1 as [w wo ms Hch | w wo ms i w' Hch Hcall
                  | w wo ms i w' result Hch Hcall Hnull Hni
                  | w wo ms i w' rest Hch Hcall Hrest IH].
  - exists []. split; [| done].
    unfold report_unhandled.
    destruct (npy_cache_import_runtime w) as [w1 [formatter |]]; [| done].
    by destruct (PyObject_Call w1 _ _ _).
  - exists [i]. split; [done |]. intros k j Hk.
    apply list_lookup_singleton_Some in Hk as [-> <-]. cbn.
    split; [done |]. eexists. by split.
  - exists [i]. split; [done |]. intros k j Hk.
    apply list_lookup_singleton_Some in Hk as [-> <-]. cbn.
    split; [done |]. eexists. by split.
  - destruct IH as (sel & Hlen & Hsel). exists (i :: sel).
    split; [cbn; by rewrite Hlen |].
    intros [| k] j Hk; cbn in Hk.
    + injection Hk as <-. cbn. split; [done |]. eexists. by split.
    + cbn. by apply Hsel.
Qed.

(** The value logged for an invocation is what the handler answered. *)
Lemma resolves_returns (w : World) (wo ms : list ptr) (e : loop_end) :
  resolves ufunc method_name in_items normal_kwds w wo ms e ->
  forall c, c ∈ loop_calls e ->
    exists w1 w2,
      PyObject_Call w1 (inv_callee c) (inv_args c) (inv_kwds c)
      = (w2, inv_ret c).
Proof.
  induction 1 as [w wo ms Hch | w wo ms i w' Hch Hcall
                  | w wo ms i w' result Hch Hcall Hnull Hni
                  | w wo ms i w' rest Hch Hcall Hrest IH]; intros c Hc.
  - unfold report_unhandled in Hc.
    destruct (npy_cache_import_runtime w) as [w1 [formatter |]];
      [destruct (PyObject_Call w1 _ _ _) |]; by apply elem_of_nil in Hc.
  - cbn in Hc. apply list_elem_of_singleton in Hc as ->. by exists w, w'.
  - cbn in Hc. apply list_elem_of_singleton in Hc as ->. by exists w, w'.
  - cbn in Hc. apply elem_of_cons in Hc as [-> | Hc]; [by exists w, w' | eauto].
Qed.

End LoopProperties.
(** ** The entry point *)

Section Resolution.
Context `{CPython}.
Variables (ufunc : ptr) (method : string) (in_args out_args wheremask_obj : ptr)
          (args : list ptr) (len_args : nat) (kwnames : ptr) (w : World).

Lemma filter_all {A} (P : A -> Prop) `{forall x, Decision (P x)} (l : list A) :
  Forall P l -> filter P l = l.
Proof.
  induction 1 as [| x l Hx Hl IH]; [done |].
  by rewrite filter_cons_True, IH.
Qed.

Lemma collected_inv (wo ms : list ptr) :
  scan_result (get_array_ufunc_overrides in_args out_args wheremask_obj)
    = Overrides wo ms ->
  collector_inv (scanned_operands in_args out_args wheremask_obj) wo ms.
Proof.
  intros Hres.
  apply (scan_operands_inv _ [] [] [] _ _ collector_inv_nil Hres).
Qed.

(** With a candidate and a normalized dictionary the call is a run of the
    loop, and the loop has rounds enough. *)
Lemma check_override_reaches_loop (wo ms : list ptr) (kw : gmap string ptr) :
  scan_result (get_array_ufunc_overrides in_args out_args wheremask_obj)
    = Overrides wo ms ->
  wo <> [] ->
  normalize_ufunc_arguments method out_args args len_args kwnames = Ok kw ->
  exists e,
    resolves ufunc (PyUnicode_FromString method) (PyTuple_items in_args) kw
      w wo ms e
    /\ PyUFunc_CheckOverride ufunc method in_args out_args wheremask_obj
         args len_args kwnames w
       = Run (loop_outcome e) (loop_world e)
           (scan_queries (get_array_ufunc_overrides in_args out_args wheremask_obj))
           (loop_calls e) (loop_report e)
           (scan_refs (get_array_ufunc_overrides in_args out_args wheremask_obj)
            ++ loop_refs e).
Proof.
  intros Hres Hne Hkw.
  exists (resolution_loop ufunc (PyUnicode_FromString method)
            (PyTuple_items in_args) kw (S (length wo)) w wo ms).
  split.
  - apply resolution_loop_resolves. pose proof (remaining_le_length wo). lia.
  - unfold PyUFunc_CheckOverride. rewrite Hres, Hkw. by destruct wo.
Qed.

(** The call either invokes nothing or is a run of the loop. *)
Lemma check_override_cases :
  let r := PyUFunc_CheckOverride ufunc method in_args out_args wheremask_obj
             args len_args kwnames w in
  (run_calls r = [] /\ run_report r = None /\ run_world r = w)
  \/ exists wo ms kw e,
       scan_result (get_array_ufunc_overrides in_args out_args wheremask_obj)
         = Overrides wo ms
       /\ wo <> []
       /\ normalize_ufunc_arguments method out_args args len_args kwnames = Ok kw
       /\ resolves ufunc (PyUnicode_FromString method) (PyTuple_items in_args) kw
            w wo ms e
       /\ run_outcome r = loop_outcome e
       /\ run_calls r = loop_calls e
       /\ run_report r = loop_report e.
Proof.
  intros r.
  destruct (scan_result (get_array_ufunc_overrides in_args out_args wheremask_obj))
    as [wo ms | err |] eqn:Hres.
  2, 3: left; unfold r, PyUFunc_CheckOverride; by rewrite Hres.
  destruct (decide (wo = [])) as [-> | Hne].
  { left. unfold r, PyUFunc_CheckOverride. by rewrite Hres. }
  destruct (normalize_ufunc_arguments method out_args args len_args kwnames)
    as [kw | err |] eqn:Hkw.
  2, 3: left; unfold r, PyUFunc_CheckOverride; rewrite Hres, Hkw; by destruct wo.
  right. destruct (check_override_reaches_loop wo ms kw Hres Hne Hkw)
    as (e & He & Hrun).
  exists wo, ms, kw, e. unfold r. by rewrite Hrun.
Qed.

(** Property X25.  The call returns: it is neither short of rounds nor, once the
    loop is reached, outside an array. *)
Lemma check_override_finishes :
  run_outcome (PyUFunc_CheckOverride ufunc method in_args out_args wheremask_obj
                 args len_args kwnames w) <> More_rounds.
Proof.
  unfold PyUFunc_CheckOverride.
  destruct (scan_result _) as [wo ms | err |] eqn:Hres; try done.
  destruct (decide (wo = [])) as [-> | Hne]; [done |].
  destruct (normalize_ufunc_arguments _ _ _ _ _) as [kw | err |] eqn:Hkw.
  - destruct wo; [done |]. cbn [run_outcome].
    eapply resolves_finishes, resolution_loop_resolves.
    pose proof (remaining_le_length (n :: wo)). lia.
  - by destruct wo.
  - by destruct wo.
Qed.

End Resolution.

(** ** Rounds and dispatch *)

Section Rounds.
Context `{CPython}.
Variables (ufunc method_name : ptr) (in_items : list ptr)
          (normal_kwds : gmap string ptr).

(** The rounds named by the original slots. *)
Lemma resolves_selection (w : World) (wo ms : list ptr) (e : loop_end) :
  resolves ufunc method_name in_items normal_kwds w wo ms e ->
  exists sel : list nat,
    length sel = length (loop_calls e)
    /\ forall k i, sel !! k = Some i ->
         first_selectable (clear_slots (take k sel) wo) i
         /\ (i ∉ take k sel)
         /\ exists c obj,
              loop_calls e !! k = Some c
              /\ wo !! i = Some obj /\ obj <> NULL
              /\ inv_self c = obj
              /\ inv_callee c = nth i ms NULL.
Proof.
  intros Hrun.
  destruct (resolves_rounds _ _ _ _ _ _ _ _ Hrun) as (sel & Hlen & Hsel).
  exists sel. split; [done |]. intros k i Hk.
  destruct (Hsel k i Hk) as (Hch & c & Hc & Hcallee & Hself).
  destruct (choose_lookup _ _ Hch) as (obj & Hobj & Hne & Hnth).
  assert (Hout : i ∉ take k sel).
  { intros Hin. apply lookup_lt_Some in Hobj as Hlt.
    rewrite clear_slots_length in Hlt.
    rewrite clear_slots_lookup_consumed in Hobj by done. congruence. }
  rewrite clear_slots_lookup_other in Hobj by done.
  split; [by apply choose_first_selectable |]. split; [done |].
  exists c, obj. repeat split; try done; try congruence.
  rewrite Hcallee, !nth_lookup. by rewrite clear_slots_lookup_other.
Qed.

(** A candidate in slot 0 waits for a derived candidate in slot 1. *)
Lemma derived_neighbour_first (wo ms : list ptr) (calls : list invocation)
    (sel : list nat) (A B : ptr) :
  NoDup wo ->
  length sel = length calls ->
  (forall k i, sel !! k = Some i ->
     first_selectable (clear_slots (take k sel) wo) i
     /\ (i ∉ take k sel)
     /\ exists c obj,
          calls !! k = Some c
          /\ wo !! i = Some obj /\ obj <> NULL
          /\ inv_self c = obj
          /\ inv_callee c = nth i ms NULL) ->
  wo !! 0%nat = Some A -> wo !! 1%nat = Some B -> B <> NULL ->
  strictly_derived B A ->
  forall k c, calls !! k = Some c -> inv_self c = A ->
    exists k' c', (k' < k)%nat /\ calls !! k' = Some c'
      /\ inv_self c' = B /\ inv_callee c' = nth 1 ms NULL.
Proof.
  intros Hnodup Hlen Hsel HA HB HBnull Hder k c Hk Hself.
  destruct (lookup_lt_is_Some_2 sel k) as [i Hi].
  { rewrite Hlen. by eapply lookup_lt_Some. }
  destruct (Hsel k i Hi) as (Hfirst & Hout & c0 & obj & Hc0 & Hobj & Hne & Hs & _).
  assert (c0 = c) as -> by congruence.
  assert (obj = A) as -> by congruence.
  assert (i = 0%nat) as -> by (by eapply NoDup_lookup).
  destruct (decide (1%nat ∈ take k sel)) as [Hin | Hnot].
  - apply elem_of_take in Hin as (k' & Hk' & Hlt).
    destruct (Hsel k' 1%nat Hk')
      as (_ & _ & c' & obj' & Hc' & Hobj' & _ & Hs' & Hcallee').
    exists k', c'. repeat split; try done. congruence.
  - exfalso. destruct Hfirst as [[_ Hno] _]. apply Hno.
    exists 1%nat, A, B. split; [by rewrite clear_slots_lookup_other |].
    split; [lia |]. split; [by rewrite clear_slots_lookup_other |]. done.
Qed.

End Rounds.

Section Dispatch.
Context `{CPython}.

(** Claim C1.  The handler invocations of a call are the rounds of the
    loop: there is a list [sel] of slot numbers, one per invocation, such
    that round [k] invokes the handler of slot [sel k] with that slot's
    operand, and [sel k] is the first slot, left to right, that still holds a
    candidate and has no remaining candidate to its right whose type is
    another type and derives from its own ([Py_TYPE] differs and
    [PyObject_IsInstance] is not 0), where "remaining" is judged in the array
    cleared of the slots of rounds [0 .. k-1] only.  In particular, with [A]
    in slot 0 and [B] in slot 1 and the type of [B] derived from that of [A],
    any invocation on [A] comes after an invocation on [B] with the handler
    of slot 1. *)
Theorem subtypes_first_then_left_to_right (ufunc : ptr) (method : string)
    (in_args out_args wheremask_obj : ptr) (args : list ptr) (len_args : nat)
    (kwnames : ptr) (w : World) (with_override methods : list ptr) :
  scan_result (get_array_ufunc_overrides in_args out_args wheremask_obj)
    = Overrides with_override methods ->
  let r := PyUFunc_CheckOverride ufunc method in_args out_args wheremask_obj
             args len_args kwnames w in
  (exists sel : list nat,
     length sel = length (run_calls r)
     /\ forall k i, sel !! k = Some i ->
          first_selectable (clear_slots (take k sel) with_override) i
          /\ exists c obj,
               run_calls r !! k = Some c
               /\ with_override !! i = Some obj
               /\ inv_self c = obj
               /\ inv_callee c = nth i methods NULL)
  /\ forall A B,
       with_override !! 0%nat = Some A -> with_override !! 1%nat = Some B ->
       strictly_derived B A ->
       forall k c, run_calls r !! k = Some c -> inv_self c = A ->
         exists k' c', (k' < k)%nat /\ run_calls r !! k' = Some c'
           /\ inv_self c' = B /\ inv_callee c' = nth 1 methods NULL.
Proof.
  intros Hres r.
  destruct (check_override_cases ufunc method in_args out_args wheremask_obj
              args len_args kwnames w)
    as [(Hcalls & _) | (wo & ms & kw & e & Hres' & Hne & Hkw & Hrun & _ & Hcalls & _)];
    fold r in Hcalls.
  { split.
    - exists []. rewrite Hcalls. split; [done |]. by intros k i Hk.
    - intros A B _ _ _ k c Hk. by rewrite Hcalls in Hk. }
  rewrite Hres in Hres'. injection Hres' as <- <-.
  destruct (collected_inv _ _ _ _ _ Hres)
    as [Hlength Hbound Hnotnull Htypes Hmethods Hcovered Hfirstocc].
  destruct (resolves_selection _ _ _ _ _ _ _ _ Hrun) as (sel & Hlen & Hsel).
  rewrite Hcalls. split.
  - exists sel. split; [done |]. intros k i Hk.
    destruct (Hsel k i Hk) as (Hfirst & _ & c & obj & Hc & Hobj & _ & Hs & Hcallee).
    split; [done |]. by exists c, obj.
  - intros A B HA HB Hder.
    apply (derived_neighbour_first with_override methods (loop_calls e) sel A B);
      try done.
    + by apply (NoDup_fmap_1 Py_TYPE).
    + eapply Forall_lookup_1 in Hnotnull; [| exact HB]. done.
Qed.


(** Claim C4.  An invocation that returns anything but
    [Py_NotImplemented] is the last invocation of the call, and no formatter
    is called: if it returned an object, the call succeeds with that object
    as result; if it returned NULL (the handler raised), the call fails with
    the handler's error left pending. *)
Theorem first_answer_ends_resolution (ufunc : ptr) (method : string)
    (in_args out_args wheremask_obj : ptr) (args : list ptr) (len_args : nat)
    (kwnames : ptr) (w : World) (k : nat) (c : invocation) :
  let r := PyUFunc_CheckOverride ufunc method in_args out_args wheremask_obj
             args len_args kwnames w in
  run_calls r !! k = Some c ->
  inv_ret c <> Py_NotImplemented ->
  length (run_calls r) = S k
  /\ run_report r = None
  /\ run_outcome r
     = (if N.eqb (inv_ret c) NULL then Failure Pending else Success (inv_ret c)).
Proof.
  intros r Hk Hret.
  destruct (check_override_cases ufunc method in_args out_args wheremask_obj
              args len_args kwnames w)
    as [(Hcalls & _) | (wo & ms & kw & e & _ & _ & _ & Hrun & Hout & Hcalls & Hrep)];
    fold r in Hcalls; [by rewrite Hcalls in Hk |].
  fold r in Hout, Hrep. rewrite Hout, Hcalls, Hrep. rewrite Hcalls in Hk.
  by eapply resolves_stops.
Qed.


Lemma unknown_method_raises (method : string) (args : list ptr)
    (len_args : nat) (normal_kwds : gmap string ptr) :
  method ∉ known_methods ->
  normalize_by_method method args len_args normal_kwds
  = Raise (TypeError (unknown_method_message method)).
Proof.
  intros Hunknown. unfold normalize_by_method.
  repeat match goal with
  | |- context [String.eqb method ?s] =>
      destruct (String.eqb_spec method s) as [-> | _];
      [exfalso; apply Hunknown; compute_done |]
  end.
  done.
Qed.

(** Claim C9, as amended.  If the method name is none of [__call__],
    [outer], [reduce], [accumulate], [reduceat], [at], the collector has
    returned at least one candidate, and [args] holds a value for each
    keyword name, then the call fails with the TypeError that names the
    method, after the collector's queries and without any call of a handler
    or of the formatter. *)
Theorem unknown_method_rejected (ufunc : ptr) (method : string)
    (in_args out_args wheremask_obj : ptr) (args : list ptr) (len_args : nat)
    (kwnames : ptr) (w : World) (with_override methods : list ptr) :
  method ∉ known_methods ->
  scan_result (get_array_ufunc_overrides in_args out_args wheremask_obj)
    = Overrides with_override methods ->
  with_override <> [] ->
  is_Some (initialize_normal_kwds out_args args len_args kwnames ∅) ->
  let r := PyUFunc_CheckOverride ufunc method in_args out_args wheremask_obj
             args len_args kwnames w in
  run_outcome r = Failure (TypeError (unknown_method_message method))
  /\ run_queries r
     = scan_queries (get_array_ufunc_overrides in_args out_args wheremask_obj)
  /\ run_calls r = []
  /\ run_report r = None
  /\ run_world r = w.
Proof.
  intros Hunknown Hres Hne [kw Hkw] r.
  unfold r, PyUFunc_CheckOverride, normalize_ufunc_arguments.
  rewrite Hres, Hkw, unknown_method_raises by done.
  by destruct with_override.
Qed.

(** Claim C10.  If the collector returns zero candidates, the call returns
    0 with the result set to NULL, whatever the method name, [args],
    [len_args] and [kwnames] are (they are not looked at: no dictionary is
    built, no unknown method is reported), and neither a handler nor the
    formatter is called. *)
Theorem no_candidates_no_override (ufunc : ptr) (method : string)
    (in_args out_args wheremask_obj : ptr) (args : list ptr) (len_args : nat)
    (kwnames : ptr) (w : World) (with_override methods : list ptr) :
  scan_result (get_array_ufunc_overrides in_args out_args wheremask_obj)
    = Overrides with_override methods ->
  length with_override = 0%nat ->
  let r := PyUFunc_CheckOverride ufunc method in_args out_args wheremask_obj
             args len_args kwnames w in
  run_outcome r = Success NULL
  /\ run_calls r = []
  /\ run_report r = None
  /\ run_world r = w.
Proof.
  intros Hres Hlen r. unfold r, PyUFunc_CheckOverride. rewrite Hres.
  by destruct with_override.
Qed.

(** Handlers that decline in every interpreter state make every invocation
    of the call decline. *)
Lemma declining_handlers_decline (ufunc : ptr) (method : string)
    (in_args out_args wheremask_obj : ptr) (args : list ptr) (len_args : nat)
    (kwnames : ptr) (w : World) :
  (forall w1 handler self kwds,
     (PyObject_Call w1 handler
        (self :: ufunc :: PyUnicode_FromString method :: PyTuple_items in_args)
        kwds).2 = Py_NotImplemented) ->
  Forall (fun c => inv_ret c = Py_NotImplemented)
    (run_calls (PyUFunc_CheckOverride ufunc method in_args out_args
                  wheremask_obj args len_args kwnames w)).
Proof.
  intros Hdecline.
  destruct (check_override_cases ufunc method in_args out_args wheremask_obj
              args len_args kwnames w)
    as [(Hcalls & _) | (wo & ms & kw & e & _ & _ & _ & Hrun & _ & Hcalls & _)];
    rewrite Hcalls; [done |].
  apply Forall_lookup_2. intros j c Hj.
  assert (Hc : c ∈ loop_calls e) by (apply list_elem_of_lookup; eauto).
  destruct (resolves_arguments _ _ _ _ _ _ _ _ Hrun c Hc)
    as (_ & i & obj & _ & _ & _ & Hargs).
  destruct (resolves_returns _ _ _ _ _ _ _ _ Hrun c Hc) as (w1 & w2 & Hcall).
  specialize (Hdecline w1 (inv_callee c) obj (inv_kwds c)).
  rewrite <- Hargs, Hcall in Hdecline. done.
Qed.

(** Property X27.  Input-level form of the rejection of an operand with
    [__array_ufunc__ = None]: when the query depends on the type only, the
    operands are well formed and within [NPY_MAXARGS], and some scanned operand
    has the marker, the call fails with the TypeError for such an operand and
    invokes nothing. *)
Lemma disabled_operand_rejected (ufunc : ptr) (method : string)
    (in_args out_args wheremask_obj : ptr) (args : list ptr) (len_args : nat)
    (kwnames : ptr) (w : World) :
  let scanned := scanned_operands in_args out_args wheremask_obj in
  (forall a b, Py_TYPE a = Py_TYPE b ->
     PyUFuncOverride_GetNonDefaultArrayUfunc a
     = PyUFuncOverride_GetNonDefaultArrayUfunc b) ->
  Forall (fun obj => obj <> NULL) scanned ->
  (length scanned <= NPY_MAXARGS)%nat ->
  (exists obj, obj ∈ scanned
     /\ PyUFuncOverride_GetNonDefaultArrayUfunc obj = Py_None) ->
  let r := PyUFunc_CheckOverride ufunc method in_args out_args wheremask_obj
             args len_args kwnames w in
  exists obj, obj ∈ scanned
    /\ PyUFuncOverride_GetNonDefaultArrayUfunc obj = Py_None
    /\ run_outcome r = Failure (TypeError (unsupported_message obj))
    /\ run_calls r = [].
Proof.
  intros scanned Htype Hnull Hlen Hsome r.
  destruct (disabled_operand_is_queried scanned [] [] Htype Hnull
              (Forall_nil_2 _) Hlen Hsome) as (obj & Hin & Hq).
  destruct (scan_disabled _ _ _ _ Hq) as (Hres & _).
  destruct (scan_queries_answers _ _ _ _ _ Hq) as (_ & Hnone).
  exists obj. split; [done |]. split; [done |].
  unfold r, PyUFunc_CheckOverride, get_array_ufunc_overrides.
  fold scanned. by rewrite Hres.
Qed.

End Dispatch.

(** ** The reference ledger *)

Section Ledger.
Context `{CPython}.

Lemma Py_XDECREF_held (p o : ptr) :
  p <> NULL -> held (Py_XDECREF p) o = held [Py_DECREF p] o.
Proof.
  intros Hp. unfold Py_XDECREF. apply N.eqb_neq in Hp. by rewrite Hp.
Qed.

(* what the collector acquired is what its arrays hold *)
Lemma scan_refs_acquired (operands wo ms wo' ms' : list ptr) (o : ptr) :
  length wo = length ms ->
  scan_result (scan_operands operands wo ms) = Overrides wo' ms' ->
  (held (acquire_overrides wo ms) o
   + held (scan_refs (scan_operands operands wo ms)) o
   = held (acquire_overrides wo' ms') o)%Z.
Proof.
  revert wo ms. induction operands as [| obj operands IH]; intros wo ms Hlen Hres.
  - cbn in *. injection Hres as <- <-. lia.
  - cbn [scan_operands] in *.
    destruct (N.eqb obj NULL); [discriminate |].
    destruct (new_class obj wo); [| by apply IH].
    destruct (N.eqb _ NULL); [cbn in *; by apply IH |].
    destruct (N.eqb _ Py_None); [discriminate |].
    destruct (NPY_MAXARGS <=? length wo)%nat; [discriminate |].
    cbn [scan_refs scan_result] in *.
    specialize (IH (wo ++ [obj]) (ms ++ [PyUFuncOverride_GetNonDefaultArrayUfunc obj])).
    rewrite acquire_overrides_snoc, held_app in IH by done.
    cbn [held] in *. rewrite !length_app in IH. cbn in IH.
    specialize (IH ltac:(lia) Hres). lia.
Qed.

(* the cleanup of arrays without NULL gives back what was acquired *)
Lemma acquire_cleanup_balanced (wo ms : list ptr) (o : ptr) :
  Forall (fun obj => obj <> NULL) wo ->
  Forall (fun method => method <> NULL) ms ->
  (held (acquire_overrides wo ms) o + held (cleanup wo ms) o = 0)%Z.
Proof.
  unfold acquire_overrides, cleanup. revert ms.
  induction wo as [| obj wo IH]; intros ms Hwo Hms; [done |].
  destruct ms as [| method ms]; [done |].
  apply Forall_cons in Hwo as [Hobj Hwo]. apply Forall_cons in Hms as [Hm Hms].
  cbn [zip_with flat_map]. rewrite !held_app.
  rewrite !Py_XDECREF_held by done. specialize (IH ms Hwo Hms).
  cbn [held app] in *. destruct (N.eqb method o), (N.eqb obj o); lia.
Qed.

(* slot i leaves the arrays: the tuple takes the operand and gives it back
   when it is deleted, line 495 drops the handler *)
Lemma cleanup_clear (wo ms : list ptr) (i : nat) (obj method o : ptr) :
  wo !! i = Some obj -> ms !! i = Some method ->
  obj <> NULL -> method <> NULL ->
  held ([Py_DECREF method; Py_DECREF obj]
        ++ cleanup (<[i := NULL]> wo) (<[i := NULL]> ms)) o
  = held (cleanup wo ms) o.
Proof.
  unfold cleanup. revert ms i.
  induction wo as [| a wo IH]; intros ms i Hobj Hm Hne Hnm; [done |].
  destruct ms as [| b ms]; [done |].
  destruct i as [| i]; cbn in Hobj, Hm.
  - injection Hobj as ->. injection Hm as ->.
    change (<[0%nat := NULL]> (obj :: wo)) with (NULL :: wo).
    change (<[0%nat := NULL]> (method :: ms)) with (NULL :: ms).
    cbn [zip_with flat_map].
    change (Py_XDECREF NULL) with (@nil ref_event).
    rewrite !held_app, !Py_XDECREF_held by done. cbn. lia.
  - change (<[S i := NULL]> (a :: wo)) with (a :: <[i := NULL]> wo).
    change (<[S i := NULL]> (b :: ms)) with (b :: <[i := NULL]> ms).
    cbn [zip_with flat_map].
    specialize (IH ms i Hobj Hm Hne Hnm).
    rewrite !held_app in *. lia.
Qed.

Lemma occurrences_cons (o p : ptr) (l : list ptr) :
  occurrences o (p :: l)
  = ((if N.eqb p o then 1 else 0) + occurrences o l)%nat.
Proof.
  unfold occurrences. rewrite filter_cons.
  destruct (N.eqb_spec p o); case_decide; done.
Qed.

Lemma held_INCREF (l : list ptr) (o : ptr) :
  held (map Py_INCREF l) o = Z.of_nat (occurrences o l).
Proof.
  induction l as [| p l IH]; [done |].
  cbn [map held]. rewrite IH, occurrences_cons.
  destruct (N.eqb p o); lia.
Qed.

Lemma held_DECREF (l : list ptr) (o : ptr) :
  held (map Py_DECREF l) o = (- Z.of_nat (occurrences o l))%Z.
Proof.
  induction l as [| p l IH]; [done |].
  cbn [map held]. rewrite IH, occurrences_cons.
  destruct (N.eqb p o); lia.
Qed.

Variables (ufunc method_name : ptr) (in_items : list ptr)
          (normal_kwds : gmap string ptr).

(* a round that invokes a handler gives up the operand and the handler, and
   nothing else: what the tuple took for its items it gave back *)
Lemma invocation_refs_held (obj method o : ptr) :
  held (invocation_refs ufunc method_name in_items obj method) o
  = held [Py_DECREF method; Py_DECREF obj] o.
Proof.
  unfold invocation_refs, fill_override_args, delete_override_args,
    override_args.
  rewrite !held_app, held_INCREF, held_DECREF.
  rewrite (occurrences_cons o obj). cbn [held].
  destruct (N.eqb obj o), (N.eqb method o); lia.
Qed.

(* the formatter's tuple: filled, and deleted after the call *)
Lemma report_refs_held (rest : list ref_event) (o : ptr) :
  held (fill_override_args ufunc method_name in_items ++ [Py_INCREF Py_None]
        ++ delete_override_args ufunc method_name in_items Py_None ++ rest) o
  = held rest o.
Proof.
  unfold fill_override_args, delete_override_args, override_args.
  rewrite !held_app, held_INCREF, held_DECREF.
  rewrite (occurrences_cons o Py_None). cbn [held].
  destruct (N.eqb Py_None o); lia.
Qed.

(* the formatter's tuple when line 474 is taken: filled, never deleted *)
Lemma unreleased_refs_held (rest : list ref_event) (o : ptr) :
  held (fill_override_args ufunc method_name in_items ++ [Py_INCREF Py_None]
        ++ rest) o
  = (Z.of_nat
       (occurrences o (override_args ufunc method_name in_items Py_None))
     + held rest o)%Z.
Proof.
  unfold fill_override_args, override_args.
  rewrite !held_app, held_INCREF.
  rewrite (occurrences_cons o Py_None). cbn [held].
  destruct (N.eqb Py_None o); lia.
Qed.

Lemma paired_clear (wo ms : list ptr) (i : nat) :
  paired wo ms -> paired (<[i := NULL]> wo) (<[i := NULL]> ms).
Proof. intros Hp. by apply Forall2_insert. Qed.

(* a loop entered with a candidate in the arrays invokes a handler *)
Lemma resolves_invokes (w : World) (wo ms : list ptr) (e : loop_end) :
  resolves ufunc method_name in_items normal_kwds w wo ms e ->
  (exists obj, obj ∈ wo /\ obj <> NULL) ->
  loop_calls e <> [].
Proof.
  destruct 1 as [w wo ms Hch | | |]; try done.
  intros (obj & Hin & Hne). apply choose_none in Hch.
  rewrite Forall_forall in Hch. destruct Hne. by apply Hch.
Qed.

(** On every way out of the loop but one, the loop has given up what a
    cleanup before the first round would have released, and the references
    taken for the items of its tuples as well.  The exception is the exit of
    line 474, reached when every invocation declined and the formatter
    cannot be imported: the tuple built for the formatter is not released,
    and each of its items keeps the reference taken for it. *)
Lemma resolves_releases (w : World) (wo ms : list ptr) (e : loop_end) (o : ptr) :
  resolves ufunc method_name in_items normal_kwds w wo ms e ->
  paired wo ms ->
  held (loop_refs e) o
  = (held (cleanup wo ms) o
     + if forallb declined (loop_calls e) then
         match loop_report e with
         | None =>
             Z.of_nat
               (occurrences o
                  (override_args ufunc method_name in_items Py_None))
         | Some _ => 0
         end
       else 0)%Z.
Proof.
  assert (Hslot : forall wo ms i, paired wo ms -> choose wo = Some i ->
            exists obj method, wo !! i = Some obj /\ ms !! i = Some method
              /\ obj <> NULL /\ method <> NULL
              /\ nth i wo NULL = obj /\ nth i ms NULL = method).
  { clear. intros wo ms i Hp Hch.
    destruct (choose_lookup _ _ Hch) as (obj & Hobj & Hne & Hnth).
    destruct (Forall2_lookup_l _ _ _ _ _ Hp Hobj) as (method & Hm & Hiff).
    exists obj, method. repeat split; try done.
    - intros ->. apply Hne. by apply Hiff.
    - by apply nth_lookup_Some. }
  assert (Hround : forall wo ms i obj m rest,
            wo !! i = Some obj -> ms !! i = Some m ->
            obj <> NULL -> m <> NULL ->
            held (invocation_refs ufunc method_name in_items obj m ++ rest) o
            = (held (cleanup wo ms) o
               - held (cleanup (<[i := NULL]> wo) (<[i := NULL]> ms)) o
               + held rest o)%Z).
  { intros wo' ms' i obj m rest Hobj Hm Hne Hnm.
    rewrite held_app, invocation_refs_held.
    rewrite <- (cleanup_clear wo' ms' i obj m o) by done.
    rewrite held_app. lia. }
  induction 1 as [w wo ms Hch | w wo ms i w' Hch Hcall
                  | w wo ms i w' result Hch Hcall Hnull Hni
                  | w wo ms i w' rest Hch Hcall Hrest IH]; intros Hp.
  - unfold report_unhandled.
    destruct (npy_cache_import_runtime w) as [w1 [formatter |]].
    + destruct (PyObject_Call w1 _ _ _) as [w2 errmsg].
      cbn [loop_refs loop_calls loop_report forallb].
      rewrite report_refs_held. lia.
    + cbn [loop_refs loop_calls loop_report forallb].
      rewrite unreleased_refs_held. lia.
  - destruct (Hslot _ _ _ Hp Hch) as (obj & m & Hobj & Hm & Hne & Hnm & -> & ->).
    cbn [loop_refs loop_calls loop_report forallb]. unfold declined at 1.
    cbn [inv_ret].
    pose proof Py_NotImplemented_not_NULL as Hni.
    destruct (N.eqb_spec NULL Py_NotImplemented) as [Heq |]; [by destruct Hni |].
    cbn [andb]. rewrite (Hround wo ms i obj m) by done. lia.
  - destruct (Hslot _ _ _ Hp Hch) as (obj & m & Hobj & Hm & Hne & Hnm & -> & ->).
    cbn [loop_refs loop_calls loop_report forallb]. unfold declined at 1.
    cbn [inv_ret].
    destruct (N.eqb_spec result Py_NotImplemented) as [Heq |]; [done |].
    cbn [andb]. rewrite (Hround wo ms i obj m) by done. lia.
  - destruct (Hslot _ _ _ Hp Hch) as (obj & m & Hobj & Hm & Hne & Hnm & -> & ->).
    cbn [loop_refs loop_calls loop_report forallb]. unfold declined at 1.
    cbn [inv_ret]. rewrite N.eqb_refl. cbn [andb].
    rewrite (Hround wo ms i obj m) by done.
    rewrite (IH (paired_clear _ _ _ Hp)). lia.
Qed.

End Ledger.

Section Release.
Context `{CPython}.

(** Property X24.  Resource discipline of the whole call, on the paths of the
    model (every allocation succeeds; the exit of lines 448-450, taken when
    [PyTuple_New] fails, is therefore not among them, and there the slot just
    chosen is already cleared and its two references are not released).
    Whenever the call returns, each reference taken for a candidate, for a
    handler or for an item of an argument tuple has been given up, with one
    exception: when handlers were invoked, all of them declined and the
    formatter cannot be imported, the call leaves by line 474 without
    releasing [override_args], and each item of
    [(None, ufunc, method name, *inputs)] keeps one reference for every time
    it occurs in that tuple. *)
Theorem references_released_unless_import_fails (ufunc : ptr)
    (method : string) (in_args out_args wheremask_obj : ptr) (args : list ptr)
    (len_args : nat) (kwnames : ptr) (w : World) (o : ptr) :
  let r := PyUFunc_CheckOverride ufunc method in_args out_args wheremask_obj
             args len_args kwnames w in
  run_outcome r <> Undefined_behaviour ->
  held (run_refs r) o
  = if left_at_import r then
      Z.of_nat
        (occurrences o
           (Py_None :: ufunc :: PyUnicode_FromString method
              :: PyTuple_items in_args))
    else 0%Z.
Proof.
  intros r Hdef. unfold left_at_import, r, PyUFunc_CheckOverride in *.
  destruct (scan_result (get_array_ufunc_overrides in_args out_args wheremask_obj))
    as [wo ms | err |] eqn:Hres; [| | done].
  2: { pose proof (scan_error_balanced _ [] [] _ o eq_refl Hres) as Hbal.
       cbn in Hbal. cbn [run_refs run_calls]. unfold get_array_ufunc_overrides.
       lia. }
  destruct (collected_inv _ _ _ _ _ Hres)
    as [Hlength Hbound Hnotnull Htypes Hmethods Hcovered Hfirstocc].
  pose proof (scan_refs_acquired _ [] [] _ _ o eq_refl Hres) as Hacq.
  cbn [acquire_overrides zip_with flat_map held] in Hacq.
  fold (get_array_ufunc_overrides in_args out_args wheremask_obj) in Hacq.
  assert (Hms : Forall (fun m => m <> NULL) ms).
  { apply Forall_lookup_2. intros i m Hm.
    destruct (Forall2_lookup_r _ _ _ _ _ Hmethods Hm) as (obj & _ & _ & Hne & _).
    done. }
  pose proof (acquire_cleanup_balanced wo ms o Hnotnull Hms) as Hbal.
  assert (Hpaired : paired wo ms).
  { apply Forall2_same_length_lookup. split; [done |].
    intros i obj m Hobj Hm.
    eapply Forall_lookup_1 in Hnotnull; [| exact Hobj].
    eapply Forall_lookup_1 in Hms; [| exact Hm].
    split; intros ->; done. }
  destruct wo as [| obj0 wo].
  { cbn [run_refs run_calls]. unfold acquire_overrides in Hacq.
    cbn [zip_with flat_map held] in Hacq. lia. }
  destruct (normalize_ufunc_arguments method out_args args len_args kwnames)
    as [kw | err |] eqn:Hkw; [| | done];
    cbn [run_refs run_calls run_report]; rewrite held_app; [| lia].
  assert (Hrun : resolves ufunc (PyUnicode_FromString method)
                   (PyTuple_items in_args) kw w (obj0 :: wo) ms
                   (resolution_loop ufunc (PyUnicode_FromString method)
                      (PyTuple_items in_args) kw (S (length (obj0 :: wo))) w
                      (obj0 :: wo) ms)).
  { apply resolution_loop_resolves.
    pose proof (remaining_le_length (obj0 :: wo)). lia. }
  rewrite (resolves_releases _ _ _ _ _ _ _ _ o Hrun Hpaired).
  pose proof (resolves_invokes _ _ _ _ _ _ _ _ Hrun) as Hcalls.
  destruct (loop_calls _) as [| c calls] eqn:Hc.
  { destruct Hcalls; [| done]. exists obj0. split; [by left |].
    by apply Forall_inv in Hnotnull. }
  unfold override_args.
  destruct (forallb declined (c :: calls)), (loop_report _); lia.
Qed.

End Release.

(** * Further properties *)

(** ** The parameter normalizer, further *)

Section Normalizer_further.
Context `{CPython}.

(* the keyword names that are stored do not touch the other keys *)
Lemma store_kwnames_other (names : list ptr) (i : nat) (args : list ptr)
    (len_args : nat) (kw kw' : gmap string ptr) (k : string) :
  store_kwnames names i args len_args kw = Some kw' ->
  k ∉ map PyUnicode_AsUTF8 names ->
  kw' !! k = kw !! k.
Proof.
  revert i kw. induction names as [| name names IH]; intros i kw Hst Hk.
  - cbn in Hst. by injection Hst as <-.
  - cbn [store_kwnames] in Hst.
    destruct (args !! (i + len_args)%nat) as [value |]; [| done].
    cbn in Hk. apply not_elem_of_cons in Hk as [Hne Hk].
    rewrite (IH _ _ Hst Hk). by apply lookup_insert_ne.
Qed.

Lemma store_kwnames_lookup (names : list ptr) (i : nat) (args : list ptr)
    (len_args : nat) (kw kw' : gmap string ptr) (j : nat) (name : ptr) :
  store_kwnames names i args len_args kw = Some kw' ->
  NoDup (map PyUnicode_AsUTF8 names) ->
  names !! j = Some name ->
  is_Some (args !! (i + j + len_args)%nat)
  /\ kw' !! PyUnicode_AsUTF8 name = args !! (i + j + len_args)%nat.
Proof.
  revert i kw j. induction names as [| n names IH]; intros i kw j Hst Hnd Hj.
  { done. }
  cbn [store_kwnames] in Hst.
  destruct (args !! (i + len_args)%nat) as [value |] eqn:Hv; [| done].
  cbn in Hnd. apply NoDup_cons in Hnd as [Hfresh Hnd].
  destruct j as [| j]; cbn in Hj.
  - injection Hj as ->. rewrite Nat.add_0_r, Hv. split; [by eexists |].
    rewrite (store_kwnames_other _ _ _ _ _ _ _ Hst Hfresh).
    apply lookup_insert_eq.
  - replace (i + S j + len_args)%nat with (S i + j + len_args)%nat by lia.
    by eapply IH.
Qed.

Lemma store_kwnames_is_Some (names : list ptr) (i : nat) (args : list ptr)
    (len_args : nat) (kw : gmap string ptr) :
  is_Some (store_kwnames names i args len_args kw)
  <-> names = [] \/ (i + len_args + length names <= length args)%nat.
Proof.
  revert i kw. induction names as [| n names IH]; intros i kw.
  { cbn. split; [by left | by eexists]. }
  cbn [store_kwnames length].
  destruct (args !! (i + len_args)%nat) as [value |] eqn:Hv.
  - apply lookup_lt_Some in Hv. rewrite IH.
    split.
    + intros [-> | Hle]; right; cbn; lia.
    + intros [Hnil | Hle]; [done |].
      destruct names; [by left | right; cbn in *; lia].
  - apply lookup_ge_None in Hv. split.
    + by intros [? ?].
    + intros [Hnil | Hle]; [done | lia].
Qed.

Lemma copy_positional_from_other (n i : nat) (keywords : list (option string))
    (args : list ptr) (kw kw' : gmap string ptr) (k : string) :
  copy_positional_from n i keywords args kw = Some kw' ->
  (forall j, (i <= j < i + n)%nat -> keywords !! j <> Some (Some k)) ->
  kw' !! k = kw !! k.
Proof.
  revert i kw. induction n as [| n IH]; intros i kw Hcopy Hk.
  { cbn in Hcopy. by injection Hcopy as <-. }
  cbn [copy_positional_from] in Hcopy.
  assert (Hrest : forall j, (S i <= j < S i + n)%nat ->
                    keywords !! j <> Some (Some k)) by (intros j Hj; apply Hk; lia).
  destruct (keywords !! i) as [[keyword |] |] eqn:Hkey; [| by eapply IH | done].
  destruct (args !! i) as [value |]; [| done].
  destruct (Nat.eqb i 5 && N.eqb value NoValue); [by eapply IH |].
  rewrite (IH _ _ Hcopy Hrest). apply lookup_insert_ne.
  intros ->. apply (Hk i); [lia | done].
Qed.

Lemma copy_positional_from_lookup (n i : nat) (keywords : list (option string))
    (args : list ptr) (kw kw' : gmap string ptr) (j : nat) (k : string) :
  copy_positional_from n i keywords args kw = Some kw' ->
  (forall a b key, keywords !! a = Some (Some key) ->
     keywords !! b = Some (Some key) -> a = b) ->
  (i <= j < i + n)%nat ->
  keywords !! j = Some (Some k) ->
  exists value,
    args !! j = Some value
    /\ kw' !! k = (if Nat.eqb j 5 && N.eqb value NoValue then kw !! k
                   else Some value).
Proof.
  revert i kw. induction n as [| n IH]; intros i kw Hcopy Hinj Hj Hk; [lia |].
  cbn [copy_positional_from] in Hcopy.
  destruct (decide (j = i)) as [-> | Hne].
  - rewrite Hk in Hcopy.
    destruct (args !! i) as [value |]; [| done].
    exists value. split; [done |].
    assert (Hrest : forall j, (S i <= j < S i + n)%nat ->
                      keywords !! j <> Some (Some k)).
    { intros j' Hj' Hk'. specialize (Hinj _ _ _ Hk Hk'). lia. }
    destruct (Nat.eqb i 5 && N.eqb value NoValue).
    + by eapply copy_positional_from_other.
    + rewrite (copy_positional_from_other _ _ _ _ _ _ _ Hcopy Hrest).
      apply lookup_insert_eq.
  - destruct (keywords !! i) as [[keyword |] |] eqn:Hkey;
      [| eapply IH; eauto; lia | done].
    destruct (args !! i) as [value |]; [| done].
    destruct (Nat.eqb i 5 && N.eqb value NoValue) eqn:Hskip;
      [eapply IH; eauto; lia |].
    destruct (IH _ _ Hcopy Hinj ltac:(lia) Hk) as (v & Hv & Hlook).
    exists v. split; [done |]. rewrite Hlook.
    destruct (Nat.eqb j 5 && N.eqb v NoValue); [| done].
    apply lookup_insert_ne. intros ->. by specialize (Hinj _ _ _ Hkey Hk).
Qed.

Lemma copy_positional_from_is_Some (n i : nat) (keywords : list (option string))
    (args : list ptr) (kw : gmap string ptr) :
  (i + n <= length keywords)%nat -> (i + n <= length args)%nat ->
  is_Some (copy_positional_from n i keywords args kw).
Proof.
  revert i kw. induction n as [| n IH]; intros i kw Hk Ha; [by eexists |].
  cbn [copy_positional_from].
  destruct (lookup_lt_is_Some_2 keywords i ltac:(lia)) as [key ->].
  destruct (lookup_lt_is_Some_2 args i ltac:(lia)) as [value ->].
  destruct key as [keyword |]; [| apply IH; lia].
  destruct (Nat.eqb i 5 && N.eqb value NoValue); apply IH; lia.
Qed.

Lemma copy_positional_from_past_table (n i : nat)
    (keywords : list (option string)) (args : list ptr) (kw : gmap string ptr) :
  (length keywords < i + n)%nat -> (0 < n)%nat ->
  copy_positional_from n i keywords args kw = None.
Proof.
  revert i kw. induction n as [| n IH]; intros i kw Hk Hn; [lia |].
  cbn [copy_positional_from].
  destruct (keywords !! i) as [key |] eqn:Hkey; [| done].
  apply lookup_lt_Some in Hkey.
  assert (Hpos : (0 < n)%nat) by lia.
  destruct key as [keyword |]; [| apply IH; lia].
  destruct (args !! i) as [value |]; [| done].
  destruct (Nat.eqb i 5 && N.eqb value NoValue); apply IH; lia.
Qed.

Lemma tables_distinct (keywords : list (option string)) :
  keywords ∈ [reduce_keywords; accumulate_keywords; reduceat_keywords] ->
  forall a b key, keywords !! a = Some (Some key) ->
    keywords !! b = Some (Some key) -> a = b.
Proof.
  intros Hin a b key Ha Hb.
  repeat (apply elem_of_cons in Hin as [-> | Hin]);
    [| | | by apply elem_of_nil in Hin];
    repeat (destruct a as [| a]; cbn in Ha; try discriminate);
    repeat (destruct b as [| b]; cbn in Hb; try discriminate);
    congruence.
Qed.

Lemma tables_without_out (keywords : list (option string)) (j : nat) :
  keywords ∈ [reduce_keywords; accumulate_keywords; reduceat_keywords] ->
  keywords !! j <> Some (Some "out").
Proof.
  intros Hin.
  repeat (apply elem_of_cons in Hin as [-> | Hin]);
    [| | | by apply elem_of_nil in Hin];
    repeat (destruct j as [| j]; cbn; try discriminate).
Qed.

Lemma normalize_signature_keyword_other (m : gmap string ptr) (k : string) :
  k <> "sig" -> k <> "signature" ->
  normalize_signature_keyword m !! k = m !! k.
Proof.
  intros Hsig Hsignature. unfold normalize_signature_keyword.
  destruct (m !! "sig"); [| done].
  rewrite lookup_delete_ne by congruence. by apply lookup_insert_ne.
Qed.

Lemma initialize_normal_kwds_out (out_args : ptr) (args : list ptr)
    (len_args : nat) (kwnames : ptr) (kw0 kw : gmap string ptr) :
  initialize_normal_kwds out_args args len_args kwnames kw0 = Some kw ->
  kw !! "out" = (if N.eqb out_args NULL then None else Some out_args).
Proof.
  unfold initialize_normal_kwds.
  destruct (if N.eqb kwnames NULL then _ else _) as [kwds |]; [| done].
  destruct (N.eqb out_args NULL); cbn.
  - destruct (kwds !! "out") eqn:Hout; intros [= <-]; [| done].
    apply lookup_delete_eq.
  - intros [= <-]. apply lookup_insert_eq.
Qed.

Lemma normalize_by_method_out (method : string) (args : list ptr)
    (len_args : nat) (kw kw' : gmap string ptr) :
  normalize_by_method method args len_args kw = Ok kw' ->
  kw' !! "out" = kw !! "out".
Proof.
  unfold normalize_by_method, copy_positional_args_to_kwargs.
  assert (Hcopy : forall keywords,
            keywords ∈ [reduce_keywords; accumulate_keywords; reduceat_keywords] ->
            of_option (copy_positional_from len_args 0 keywords args kw) = Ok kw' ->
            kw' !! "out" = kw !! "out").
  { intros keywords Hin Hok.
    destruct (copy_positional_from _ _ _ _ _) as [kw1 |] eqn:Hc; [| done].
    injection Hok as ->. eapply copy_positional_from_other; [exact Hc |].
    intros j _. by apply tables_without_out. }
  destruct (String.eqb method "__call__" || String.eqb method "outer").
  { intros [= <-]. by apply normalize_signature_keyword_other. }
  destruct (String.eqb method "reduce");
    [apply Hcopy; repeat constructor |].
  destruct (String.eqb method "accumulate");
    [apply Hcopy; repeat constructor |].
  destruct (String.eqb method "reduceat");
    [apply Hcopy; repeat constructor |].
  destruct (String.eqb method "at"); [by intros [= <-] | done].
Qed.

(** Property X1.  Whatever the method and the keyword names, a normalized
    dictionary holds [out] exactly when an output tuple was passed, and then
    bound to that tuple: a keyword [out] never survives on its own, and no
    positional slot is copied to [out]. *)
Theorem normalized_out_is_the_output_tuple (method : string) (out_args : ptr)
    (args : list ptr) (len_args : nat) (kwnames : ptr)
    (kw : gmap string ptr) :
  normalize_ufunc_arguments method out_args args len_args kwnames = Ok kw ->
  kw !! "out" = (if N.eqb out_args NULL then None else Some out_args).
Proof.
  unfold normalize_ufunc_arguments.
  destruct (initialize_normal_kwds _ _ _ _ _) as [kw1 |] eqn:Hinit; [| done].
  intros Hnorm. rewrite (normalize_by_method_out _ _ _ _ _ Hnorm).
  by eapply initialize_normal_kwds_out.
Qed.

Lemma keyword_values_room_aux (out_args : ptr) (args : list ptr)
    (len_args : nat) (kwnames : ptr) (kw0 : gmap string ptr) :
  is_Some (initialize_normal_kwds out_args args len_args kwnames kw0)
  <-> kwnames = NULL \/ PyTuple_items kwnames = []
     \/ (len_args + length (PyTuple_items kwnames) <= length args)%nat.
Proof.
  unfold initialize_normal_kwds.
  destruct (N.eqb_spec kwnames NULL) as [-> | Hne].
  - split; [by left |]. intros _.
    destruct (negb _); [by eexists |]. destruct (kw0 !! "out"); by eexists.
  - pose proof (store_kwnames_is_Some (PyTuple_items kwnames) 0 args len_args kw0)
      as Hstore.
    destruct (store_kwnames _ _ _ _ _) as [kwds |].
    + split.
      * intros _. right. apply Hstore. by eexists.
      * intros _. destruct (negb _); [by eexists |].
        destruct (kwds !! "out"); by eexists.
    + split; [by intros [? ?] |].
      intros [Hnull | Hroom]; [done |].
      apply Hstore in Hroom. by destruct Hroom.
Qed.

(** Property X2.  The keyword values are read at [args[len_args + i]]: the
    initialization stays inside [args] exactly when there are no keyword names
    or [args] holds [len_args] values and one more per name. *)
Theorem keyword_values_need_room (out_args : ptr) (args : list ptr)
    (len_args : nat) (kwnames : ptr) (kw0 : gmap string ptr) :
  is_Some (initialize_normal_kwds out_args args len_args kwnames kw0)
  <-> kwnames = NULL \/ PyTuple_items kwnames = []
     \/ (len_args + length (PyTuple_items kwnames) <= length args)%nat.
Proof. apply keyword_values_room_aux. Qed.

(** Property X3.  Keyword arguments pass through: with pairwise distinct keyword
    names, the name in position [j], unless it is [out], is bound in the
    initialized dictionary to the value [args[len_args + j]]. *)
Theorem keywords_pass_through (out_args : ptr) (args : list ptr)
    (len_args : nat) (kwnames : ptr) (kw : gmap string ptr) (j : nat)
    (name : ptr) :
  initialize_normal_kwds out_args args len_args kwnames ∅ = Some kw ->
  kwnames <> NULL ->
  NoDup (map PyUnicode_AsUTF8 (PyTuple_items kwnames)) ->
  PyTuple_items kwnames !! j = Some name ->
  PyUnicode_AsUTF8 name <> "out" ->
  is_Some (args !! (len_args + j)%nat)
  /\ kw !! PyUnicode_AsUTF8 name = args !! (len_args + j)%nat.
Proof.
  unfold initialize_normal_kwds. intros Hinit Hne Hnd Hj Hout.
  apply N.eqb_neq in Hne. rewrite Hne in Hinit.
  destruct (store_kwnames _ _ _ _ _) as [kwds |] eqn:Hstore; [| done].
  destruct (store_kwnames_lookup _ _ _ _ _ _ _ _ Hstore Hnd Hj) as [Hsome Hlook].
  replace (0 + j + len_args)%nat with (len_args + j)%nat in * by lia.
  split; [done |]. rewrite <- Hlook.
  destruct (negb _).
  - injection Hinit as <-. by apply lookup_insert_ne.
  - destruct (kwds !! "out"); injection Hinit as <-; [| done].
    by apply lookup_delete_ne.
Qed.

Lemma normalize_signature_keyword_sig (m : gmap string ptr) :
  normalize_signature_keyword m !! "sig" = None.
Proof.
  unfold normalize_signature_keyword.
  destruct (m !! "sig") eqn:Hsig; [apply lookup_delete_eq | done].
Qed.

Lemma normalize_by_method_sig (method : string) (args : list ptr)
    (len_args : nat) (kw kw' : gmap string ptr) :
  method = "__call__" \/ method = "outer" ->
  normalize_by_method method args len_args kw = Ok kw' ->
  kw' !! "sig" = None.
Proof.
  unfold normalize_by_method.
  intros [-> | ->]; cbn; intros [= <-]; apply normalize_signature_keyword_sig.
Qed.

(** Property X4.  For [__call__] and [outer] the normalized dictionary never
    holds the key [sig], whatever keyword names were passed, and it is in normal
    form: [normalize_signature_keyword] leaves it as it is. *)
Theorem sig_never_survives (method : string) (out_args : ptr)
    (args : list ptr) (len_args : nat) (kwnames : ptr)
    (kw : gmap string ptr) :
  method = "__call__" \/ method = "outer" ->
  normalize_ufunc_arguments method out_args args len_args kwnames = Ok kw ->
  kw !! "sig" = None /\ normalize_signature_keyword kw = kw.
Proof.
  unfold normalize_ufunc_arguments. intros Hmethod.
  destruct (initialize_normal_kwds _ _ _ _ _) as [kw1 |] eqn:Hinit; [| done].
  intros Hnorm.
  pose proof (normalize_by_method_sig _ _ _ _ _ Hmethod Hnorm) as Hsig.
  split; [done |]. unfold normalize_signature_keyword. by rewrite Hsig.
Qed.

(** Property X5.  For each of the three keyword tables, after the positional
    arguments are copied: a slot [j < len_args] with keyword [k] binds [k] to
    [args[j]], overwriting an entry that a keyword argument had made, except
    slot 5 holding [_NoValue], which leaves [k] as it was; a key that is the
    keyword of no copied slot keeps its entry. *)
Theorem positional_overrides_keyword (keywords : list (option string))
    (args : list ptr) (len_args : nat) (kw kw' : gmap string ptr) :
  keywords ∈ [reduce_keywords; accumulate_keywords; reduceat_keywords] ->
  copy_positional_args_to_kwargs keywords args len_args kw = Some kw' ->
  (forall j k, (j < len_args)%nat -> keywords !! j = Some (Some k) ->
     exists value,
       args !! j = Some value
       /\ kw' !! k = (if Nat.eqb j 5 && N.eqb value NoValue then kw !! k
                      else Some value))
  /\ (forall k, (forall j, (j < len_args)%nat ->
                  keywords !! j <> Some (Some k)) ->
       kw' !! k = kw !! k).
Proof.
  unfold copy_positional_args_to_kwargs. intros Hin Hcopy. split.
  - intros j k Hj Hk.
    eapply copy_positional_from_lookup; eauto using tables_distinct. lia.
  - intros k Hk. eapply copy_positional_from_other; [exact Hcopy |].
    intros j Hj. apply Hk. lia.
Qed.

(** Property X6.  The copy reads [keywords[i]] and [args[i]] for [i < len_args]:
    it stays inside both arrays when [len_args] is at most the length of each,
    and reads past the end of the keyword table as soon as [len_args] exceeds
    the length of the table. *)
Theorem positional_arguments_bounds (keywords : list (option string))
    (args : list ptr) (len_args : nat) (kw : gmap string ptr) :
  ((len_args <= length keywords)%nat -> (len_args <= length args)%nat ->
   is_Some (copy_positional_args_to_kwargs keywords args len_args kw))
  /\ ((length keywords < len_args)%nat ->
      copy_positional_args_to_kwargs keywords args len_args kw = None).
Proof.
  unfold copy_positional_args_to_kwargs. split.
  - intros Hk Ha. by apply copy_positional_from_is_Some.
  - intros Hk. apply copy_positional_from_past_table; lia.
Qed.

Lemma known_method_cases (method : string) :
  method ∈ known_methods ->
  method = "__call__" \/ method = "outer" \/ method = "reduce"
  \/ method = "accumulate" \/ method = "reduceat" \/ method = "at".
Proof.
  unfold known_methods. intros Hin.
  repeat (apply elem_of_cons in Hin as [-> | Hin]; [tauto |]).
  by apply elem_of_nil in Hin.
Qed.

(** Property X8.  A well-formed call is normalized: for a known method, with a
    value in [args] for every positional argument and every keyword name, and no
    more positional arguments than the table of the method has entries, the
    normalization answers a dictionary. *)
Theorem well_formed_call_is_normalized (method : string) (out_args : ptr)
    (args : list ptr) (len_args : nat) (kwnames : ptr) :
  method ∈ known_methods ->
  (len_args <= length args)%nat ->
  kwnames = NULL
  \/ (len_args + length (PyTuple_items kwnames) <= length args)%nat ->
  (forall limit, positional_limit method = Some limit ->
     (len_args <= limit)%nat) ->
  exists kw,
    normalize_ufunc_arguments method out_args args len_args kwnames = Ok kw.
Proof.
  intros Hknown Hargs Hroom Hlimit. unfold normalize_ufunc_arguments.
  destruct (proj2 (keyword_values_room_aux out_args args len_args kwnames ∅))
    as [kw1 Hinit].
  { destruct Hroom as [-> | Hroom]; [by left | by right; right]. }
  rewrite Hinit. unfold normalize_by_method.
  assert (Hcopy : forall keywords,
            positional_limit method = Some (length keywords) ->
            exists kw,
              of_option (copy_positional_args_to_kwargs keywords args len_args
                           kw1) = Ok kw).
  { intros keywords Hlim.
    destruct (copy_positional_from_is_Some len_args 0 keywords args kw1)
      as [kw2 Hkw2]; [by apply Hlimit | done |].
    exists kw2. unfold copy_positional_args_to_kwargs. by rewrite Hkw2. }
  apply known_method_cases in Hknown.
  destruct Hknown as [-> | [-> | [-> | [-> | [-> | ->]]]]]; cbn;
    try (by eexists); by apply Hcopy.
Qed.

End Normalizer_further.

(** ** The candidate collector, further *)

Section Collector_further.
Context `{CPython}.

(* the scan of a list in two parts: the second part starts from the arrays
   that the first part has filled *)
Lemma scan_operands_app (pre rest wo ms wo' ms' : list ptr) :
  scan_result (scan_operands pre wo ms) = Overrides wo' ms' ->
  scan_operands (pre ++ rest) wo ms
  = Scan (scan_result (scan_operands rest wo' ms'))
      (scan_queries (scan_operands pre wo ms)
       ++ scan_queries (scan_operands rest wo' ms'))
      (scan_refs (scan_operands pre wo ms)
       ++ scan_refs (scan_operands rest wo' ms')).
Proof.
  revert wo ms. induction pre as [| obj pre IH]; intros wo ms Hres.
  { cbn in Hres. injection Hres as <- <-. cbn.
    by destruct (scan_operands rest wo ms). }
  cbn [scan_operands app] in *.
  destruct (N.eqb obj NULL); [done |].
  destruct (new_class obj wo); [| by apply IH].
  destruct (N.eqb (PyUFuncOverride_GetNonDefaultArrayUfunc obj) NULL).
  { cbn in *. by rewrite (IH _ _ Hres). }
  destruct (N.eqb (PyUFuncOverride_GetNonDefaultArrayUfunc obj) Py_None);
    [done |].
  destruct (NPY_MAXARGS <=? length wo)%nat; [done |].
  cbn in *. by rewrite (IH _ _ Hres).
Qed.

Lemma scan_operands_prefix (pre rest wo ms wo2 ms2 : list ptr) :
  scan_result (scan_operands (pre ++ rest) wo ms) = Overrides wo2 ms2 ->
  exists wo1 ms1, scan_result (scan_operands pre wo ms) = Overrides wo1 ms1.
Proof.
  revert wo ms. induction pre as [| obj pre IH]; intros wo ms Hres.
  { by exists wo, ms. }
  cbn [scan_operands app] in *.
  destruct (N.eqb obj NULL); [done |].
  destruct (new_class obj wo); [| by eapply IH].
  destruct (N.eqb (PyUFuncOverride_GetNonDefaultArrayUfunc obj) NULL);
    [cbn in *; by eapply IH |].
  destruct (N.eqb (PyUFuncOverride_GetNonDefaultArrayUfunc obj) Py_None);
    [done |].
  destruct (NPY_MAXARGS <=? length wo)%nat; [done |].
  cbn in *. by eapply IH.
Qed.

(* the arrays grow at the end, by operands in the order of the scan *)
Lemma scan_operands_sublist (operands wo ms wo' ms' : list ptr) :
  scan_result (scan_operands operands wo ms) = Overrides wo' ms' ->
  exists new_objs new_methods,
    wo' = wo ++ new_objs /\ ms' = ms ++ new_methods
    /\ new_objs `sublist_of` operands.
Proof.
  revert wo ms. induction operands as [| obj operands IH]; intros wo ms Hres.
  { cbn in Hres. injection Hres as <- <-. exists [], [].
    by rewrite !app_nil_r. }
  cbn [scan_operands] in Hres.
  assert (Hskip : forall wo1 ms1,
            scan_result (scan_operands operands wo1 ms1) = Overrides wo' ms' ->
            exists new_objs new_methods,
              wo' = wo1 ++ new_objs /\ ms' = ms1 ++ new_methods
              /\ new_objs `sublist_of` obj :: operands).
  { intros wo1 ms1 Hres1.
    destruct (IH _ _ Hres1) as (no & nm & -> & -> & Hsub).
    exists no, nm. repeat split; try done. by apply sublist_cons. }
  destruct (N.eqb obj NULL); [done |].
  destruct (new_class obj wo); [| by apply Hskip].
  destruct (N.eqb (PyUFuncOverride_GetNonDefaultArrayUfunc obj) NULL);
    [by apply Hskip |].
  destruct (N.eqb (PyUFuncOverride_GetNonDefaultArrayUfunc obj) Py_None);
    [done |].
  destruct (NPY_MAXARGS <=? length wo)%nat; [done |].
  cbn in Hres. destruct (IH _ _ Hres) as (no & nm & -> & -> & Hsub).
  exists (obj :: no), (PyUFuncOverride_GetNonDefaultArrayUfunc obj :: nm).
  rewrite <- !app_assoc. repeat split; try done. by apply sublist_skip.
Qed.

(* a scan that reaches the end has met no NULL operand *)
Lemma scan_success_not_null (operands wo ms wo' ms' : list ptr) :
  scan_result (scan_operands operands wo ms) = Overrides wo' ms' ->
  Forall (fun obj => obj <> NULL) operands.
Proof.
  revert wo ms. induction operands as [| obj operands IH]; intros wo ms Hres.
  { constructor. }
  cbn [scan_operands] in Hres.
  destruct (N.eqb_spec obj NULL) as [| Hne]; [done |].
  constructor; [done |].
  destruct (new_class obj wo); [| by eapply IH].
  destruct (N.eqb (PyUFuncOverride_GetNonDefaultArrayUfunc obj) NULL);
    [by eapply IH |].
  destruct (N.eqb (PyUFuncOverride_GetNonDefaultArrayUfunc obj) Py_None);
    [done |].
  destruct (NPY_MAXARGS <=? length wo)%nat; [done |].
  by eapply IH.
Qed.

(* operands that are not NULL and do not answer None are scanned to the
   end when the arrays have room *)
Lemma scan_succeeds (operands wo ms : list ptr) :
  Forall (fun obj => obj <> NULL
                     /\ PyUFuncOverride_GetNonDefaultArrayUfunc obj <> Py_None)
    operands ->
  (length wo + length operands <= NPY_MAXARGS)%nat ->
  exists wo' ms', scan_result (scan_operands operands wo ms) = Overrides wo' ms'.
Proof.
  intros Hall. revert wo ms.
  induction Hall as [| obj operands [Hnull Hnone] _ IH]; intros wo ms Hlen.
  { by exists wo, ms. }
  cbn [scan_operands]. cbn in Hlen.
  apply N.eqb_neq in Hnull, Hnone. rewrite Hnull.
  destruct (new_class obj wo); [| apply IH; lia].
  destruct (N.eqb (PyUFuncOverride_GetNonDefaultArrayUfunc obj) NULL);
    [cbn; apply IH; lia |].
  rewrite Hnone.
  destruct (NPY_MAXARGS <=? length wo)%nat eqn:Hmax;
    [apply Nat.leb_le in Hmax; lia |].
  cbn. apply IH. rewrite length_app. cbn. lia.
Qed.

(* the two ways in which the scan fails *)
Lemma scan_error_kind (operands wo ms : list ptr) (e : exception) :
  scan_result (scan_operands operands wo ms) = Collect_error e ->
  (e = TypeError retrieve_message /\ NULL ∈ operands)
  \/ exists obj, obj ∈ operands
       /\ PyUFuncOverride_GetNonDefaultArrayUfunc obj = Py_None
       /\ e = TypeError (unsupported_message obj).
Proof.
  revert wo ms. induction operands as [| obj operands IH]; intros wo ms Hres.
  { done. }
  assert (Hlater : forall wo1 ms1,
            scan_result (scan_operands operands wo1 ms1) = Collect_error e ->
            (e = TypeError retrieve_message /\ NULL ∈ obj :: operands)
            \/ exists o, o ∈ obj :: operands
                 /\ PyUFuncOverride_GetNonDefaultArrayUfunc o = Py_None
                 /\ e = TypeError (unsupported_message o)).
  { intros wo1 ms1 Hres1.
    destruct (IH _ _ Hres1) as [[-> Hin] | (o & Hin & Hq & ->)].
    - left. split; [done | by apply elem_of_cons; right].
    - right. exists o. split; [by apply elem_of_cons; right | done]. }
  cbn [scan_operands] in Hres.
  destruct (N.eqb_spec obj NULL) as [-> | Hne].
  { cbn in Hres. injection Hres as <-. left.
    split; [done | by apply elem_of_cons; left]. }
  destruct (new_class obj wo); [| by eapply Hlater].
  destruct (N.eqb (PyUFuncOverride_GetNonDefaultArrayUfunc obj) NULL);
    [by eapply Hlater |].
  destruct (N.eqb_spec (PyUFuncOverride_GetNonDefaultArrayUfunc obj) Py_None)
    as [Hnone | _].
  { cbn in Hres. injection Hres as <-. right. exists obj.
    split; [by apply elem_of_cons; left | done]. }
  destruct (NPY_MAXARGS <=? length wo)%nat; [done |].
  by eapply Hlater.
Qed.

Lemma held_acquire_overrides (wo ms : list ptr) (o : ptr) :
  length wo = length ms ->
  held (acquire_overrides wo ms) o
  = Z.of_nat (occurrences o wo + occurrences o ms).
Proof.
  unfold acquire_overrides, occurrences. revert ms.
  induction wo as [| obj wo IH]; intros [| method ms] Hlen; try done.
  cbn [zip_with flat_map app held]. rewrite IH by (cbn in Hlen; lia).
  rewrite !filter_cons.
  destruct (N.eqb_spec method o), (N.eqb_spec obj o);
    repeat case_decide; try done; cbn [length]; lia.
Qed.

(** Property X9.  What the collector returns: the two arrays have the same
    length; no stored operand is NULL; and the handler stored beside an operand
    is the answer of the query for that operand, which is neither NULL nor None. *)
Theorem collected_handlers_are_live (in_args out_args wheremask_obj : ptr)
    (with_override methods : list ptr) :
  scan_result (get_array_ufunc_overrides in_args out_args wheremask_obj)
    = Overrides with_override methods ->
  length with_override = length methods
  /\ forall i obj,
       with_override !! i = Some obj ->
       obj <> NULL
       /\ methods !! i = Some (PyUFuncOverride_GetNonDefaultArrayUfunc obj)
       /\ PyUFuncOverride_GetNonDefaultArrayUfunc obj <> NULL
       /\ PyUFuncOverride_GetNonDefaultArrayUfunc obj <> Py_None.
Proof.
  intros Hres.
  destruct (collected_inv _ _ _ _ _ Hres)
    as [Hlength Hbound Hnotnull Htypes Hmethods Hcovered Hfirstocc].
  split; [done |]. intros i obj Hobj.
  destruct (Forall2_lookup_l _ _ _ _ _ Hmethods Hobj)
    as (method & Hm & -> & Hnull & Hnone).
  split; [by eapply Forall_lookup_1 in Hnotnull |]. done.
Qed.

(** Property X10.  The candidates keep the order of the scan: the array of
    operands is a subsequence of the scanned operands (inputs, then outputs,
    then the mask). *)
Theorem candidates_in_scan_order (in_args out_args wheremask_obj : ptr)
    (with_override methods : list ptr) :
  scan_result (get_array_ufunc_overrides in_args out_args wheremask_obj)
    = Overrides with_override methods ->
  with_override `sublist_of` scanned_operands in_args out_args wheremask_obj.
Proof.
  intros Hres. unfold get_array_ufunc_overrides in Hres.
  by destruct (scan_operands_sublist _ _ _ _ _ Hres) as (no & nm & -> & _ & Hsub).
Qed.

(** Property X11.  Inputs come first: when the scan of inputs, outputs and mask
    succeeds, so does the scan of the inputs alone and that of inputs and
    outputs, and their candidates and handlers are the first entries of the
    arrays of the full scan. *)
Theorem input_candidates_come_first (in_args out_args wheremask_obj : ptr)
    (with_override methods : list ptr) :
  scan_result (get_array_ufunc_overrides in_args out_args wheremask_obj)
    = Overrides with_override methods ->
  (exists wo_in ms_in,
     scan_result (get_array_ufunc_overrides in_args NULL NULL)
       = Overrides wo_in ms_in
     /\ wo_in `prefix_of` with_override /\ ms_in `prefix_of` methods)
  /\ (exists wo_io ms_io,
        scan_result (get_array_ufunc_overrides in_args out_args NULL)
          = Overrides wo_io ms_io
        /\ wo_io `prefix_of` with_override /\ ms_io `prefix_of` methods).
Proof.
  unfold get_array_ufunc_overrides, scanned_operands.
  change (N.eqb NULL NULL) with true. cbn iota.
  rewrite !app_nil_r. intros Hres.
  assert (Hpart : forall pre rest,
            scan_result (scan_operands (pre ++ rest) [] [])
              = Overrides with_override methods ->
            exists wo1 ms1,
              scan_result (scan_operands pre [] []) = Overrides wo1 ms1
              /\ wo1 `prefix_of` with_override /\ ms1 `prefix_of` methods).
  { intros pre rest Hfull.
    destruct (scan_operands_prefix _ _ _ _ _ _ Hfull) as (wo1 & ms1 & Hpre).
    exists wo1, ms1. split; [done |].
    rewrite (scan_operands_app _ rest _ _ _ _ Hpre) in Hfull. cbn in Hfull.
    destruct (scan_operands_sublist _ _ _ _ _ Hfull) as (no & nm & -> & -> & _).
    split; by eexists. }
  split.
  - by eapply Hpart.
  - rewrite app_assoc in Hres. by eapply Hpart.
Qed.

(** Property X12.  No override is missed: after a successful scan every scanned
    operand is not NULL, and either supplies no handler or has the runtime type
    of a candidate. *)
Theorem no_override_is_missed (in_args out_args wheremask_obj : ptr)
    (with_override methods : list ptr) :
  scan_result (get_array_ufunc_overrides in_args out_args wheremask_obj)
    = Overrides with_override methods ->
  forall obj, obj ∈ scanned_operands in_args out_args wheremask_obj ->
    obj <> NULL
    /\ (PyUFuncOverride_GetNonDefaultArrayUfunc obj = NULL
        \/ exists candidate, candidate ∈ with_override
             /\ Py_TYPE candidate = Py_TYPE obj).
Proof.
  intros Hres obj Hobj.
  destruct (collected_inv _ _ _ _ _ Hres)
    as [Hlength Hbound Hnotnull Htypes Hmethods Hcovered Hfirstocc].
  unfold get_array_ufunc_overrides in Hres.
  apply scan_success_not_null in Hres.
  apply list_elem_of_lookup in Hobj as [k Hk].
  split; [by eapply Forall_lookup_1 in Hres |].
  eapply Forall_lookup_1 in Hcovered; [| exact Hk].
  destruct Hcovered as [Hty | Hq]; [right | by left].
  apply list_elem_of_fmap in Hty as (candidate & Hty & Hin). by exists candidate.
Qed.

(** Property X13.  A NULL item among the operands, reached by the scan (the
    operands before it are not NULL, none answers None, and they fit the
    arrays), makes the call fail with the TypeError "failed to retrieve argument
    from input or output tuples."; no handler and no formatter is called, and
    what the collector had acquired is released. *)
Theorem null_operand_fails (ufunc : ptr) (method : string)
    (in_args out_args wheremask_obj : ptr) (args : list ptr) (len_args : nat)
    (kwnames : ptr) (w : World) (before after : list ptr) :
  scanned_operands in_args out_args wheremask_obj = before ++ NULL :: after ->
  Forall (fun obj => obj <> NULL
                     /\ PyUFuncOverride_GetNonDefaultArrayUfunc obj <> Py_None)
    before ->
  (length before <= NPY_MAXARGS)%nat ->
  let r := PyUFunc_CheckOverride ufunc method in_args out_args wheremask_obj
             args len_args kwnames w in
  run_outcome r = Failure (TypeError retrieve_message)
  /\ run_calls r = []
  /\ run_report r = None
  /\ run_world r = w
  /\ forall o, held (run_refs r) o = 0%Z.
Proof.
  intros Hscanned Hbefore Hlen r.
  destruct (scan_succeeds before [] [] Hbefore Hlen) as (wo1 & ms1 & Hpre).
  assert (Hres : scan_result
                   (get_array_ufunc_overrides in_args out_args wheremask_obj)
                 = Collect_error (TypeError retrieve_message)).
  { unfold get_array_ufunc_overrides. rewrite Hscanned.
    by rewrite (scan_operands_app _ (NULL :: after) _ _ _ _ Hpre). }
  pose proof (fun o => scan_error_balanced _ [] [] _ o eq_refl Hres) as Hbal.
  unfold r, PyUFunc_CheckOverride. rewrite Hres. cbn.
  split; [done |]. split; [done |]. split; [done |]. split; [done |].
  intros o. specialize (Hbal o). cbn in Hbal.
  unfold get_array_ufunc_overrides. lia.
Qed.

(** Property X14.  The collector fails in two ways only, on a NULL item with the
    TypeError of line 79 or on an operand whose query answers None with the
    TypeError of line 103 for that operand, and in both it has released every
    reference it had acquired. *)
Theorem collector_failure_releases (in_args out_args wheremask_obj : ptr)
    (e : exception) :
  scan_result (get_array_ufunc_overrides in_args out_args wheremask_obj)
    = Collect_error e ->
  ((e = TypeError retrieve_message
    /\ NULL ∈ scanned_operands in_args out_args wheremask_obj)
   \/ exists obj, obj ∈ scanned_operands in_args out_args wheremask_obj
        /\ PyUFuncOverride_GetNonDefaultArrayUfunc obj = Py_None
        /\ e = TypeError (unsupported_message obj))
  /\ forall o,
       held (scan_refs (get_array_ufunc_overrides in_args out_args
                          wheremask_obj)) o = 0%Z.
Proof.
  intros Hres. split.
  - by apply (scan_error_kind _ [] []).
  - intros o.
    pose proof (scan_error_balanced _ [] [] _ o eq_refl Hres) as Hbal.
    cbn in Hbal. unfold get_array_ufunc_overrides. lia.
Qed.

(** Property X15.  After a successful scan the collector holds one reference for
    each entry of its two arrays and nothing else: for every object, the
    references acquired and not released are as many as the object occurs in
    [with_override] and in [methods]. *)
Theorem collected_references_are_held (in_args out_args wheremask_obj : ptr)
    (with_override methods : list ptr) (o : ptr) :
  scan_result (get_array_ufunc_overrides in_args out_args wheremask_obj)
    = Overrides with_override methods ->
  held (scan_refs (get_array_ufunc_overrides in_args out_args wheremask_obj)) o
  = Z.of_nat (occurrences o with_override + occurrences o methods).
Proof.
  intros Hres.
  destruct (collected_inv _ _ _ _ _ Hres)
    as [Hlength Hbound Hnotnull Htypes Hmethods Hcovered Hfirstocc].
  pose proof (scan_refs_acquired _ [] [] _ _ o eq_refl Hres) as Hacq.
  change (held (acquire_overrides [] []) o) with 0%Z in Hacq.
  rewrite held_acquire_overrides in Hacq by done.
  unfold get_array_ufunc_overrides. lia.
Qed.

End Collector_further.

(** ** Selection and dispatch, further *)

Section Selection_further.
Context `{CPython}.

Lemma unrelated_selectable (slots : list ptr) (i : nat) :
  unrelated slots ->
  selectable slots i <-> exists obj, slots !! i = Some obj /\ obj <> NULL.
Proof.
  intros Hun. unfold selectable. split; [by intros [? _] |].
  intros (obj & Hobj & Hne). split; [by exists obj |].
  intros (j & obj' & other & Hobj' & _ & Hother & Hnull & Hder).
  assert (obj' = obj) as -> by congruence.
  apply (Hun obj other); try done.
  - apply list_elem_of_lookup. by exists i.
  - apply list_elem_of_lookup. by exists j.
Qed.

Lemma unrelated_first_selectable (slots : list ptr) (i : nat) :
  unrelated slots ->
  first_selectable slots i <-> first_remaining slots i.
Proof.
  intros Hun. unfold first_selectable, first_remaining.
  rewrite unrelated_selectable by done. split.
  - intros [(obj & Hobj & Hne) Hfirst]. split; [by exists obj |].
    intros i' Hlt. apply lookup_lt_Some in Hobj as Hlen.
    destruct (lookup_lt_is_Some_2 slots i' ltac:(lia)) as [x Hx].
    destruct (decide (x = NULL)) as [-> | Hx']; [done |].
    destruct (Hfirst i' Hlt). apply unrelated_selectable; [done |].
    by exists x.
  - intros [Hobj Hfirst]. split; [done |].
    intros i' Hlt Hsel. apply unrelated_selectable in Hsel; [| done].
    destruct Hsel as (x & Hx & Hne). specialize (Hfirst i' Hlt). congruence.
Qed.

Lemma clear_slots_lookup_candidate (consumed : list nat) (slots : list ptr)
    (j : nat) (x : ptr) :
  clear_slots consumed slots !! j = Some x -> x <> NULL ->
  slots !! j = Some x /\ j ∉ consumed.
Proof.
  intros Hj Hne. destruct (decide (j ∈ consumed)) as [Hin | Hout].
  - apply lookup_lt_Some in Hj as Hlen. rewrite clear_slots_length in Hlen.
    rewrite clear_slots_lookup_consumed in Hj by done. congruence.
  - by rewrite clear_slots_lookup_other in Hj.
Qed.

Lemma unrelated_clear_slots (consumed : list nat) (slots : list ptr) :
  unrelated slots -> unrelated (clear_slots consumed slots).
Proof.
  intros Hun a b Ha Hb Hna Hnb.
  apply list_elem_of_lookup in Ha as [i Hi].
  apply list_elem_of_lookup in Hb as [j Hj].
  apply clear_slots_lookup_candidate in Hi as [Hi _]; [| done].
  apply clear_slots_lookup_candidate in Hj as [Hj _]; [| done].
  apply Hun; try done; apply list_elem_of_lookup; eauto.
Qed.

(** Property X16.  The selection never stalls: it selects nothing only when
    every slot is NULL; otherwise it selects a slot that holds a candidate,
    whatever [PyObject_IsInstance] answers (also when it errs, or calls two
    types instances of each other). *)
Theorem selection_never_stalls (with_override : list ptr) :
  (choose with_override = None
   /\ Forall (fun obj => obj = NULL) with_override)
  \/ exists i obj,
       choose with_override = Some i
       /\ with_override !! i = Some obj /\ obj <> NULL.
Proof.
  destruct (choose with_override) as [i |] eqn:Hch.
  - right. destruct (choose_lookup _ _ Hch) as (obj & Hobj & Hne & _).
    by exists i, obj.
  - left. split; [done |]. by apply choose_none.
Qed.

(** Property X17.  Left to right among unrelated candidates: when no remaining
    candidate has a type that derives from the type of another, the slot
    selected is the leftmost slot that still holds a candidate. *)
Theorem unrelated_selects_leftmost (with_override : list ptr) (i : nat) :
  unrelated with_override ->
  choose with_override = Some i <-> first_remaining with_override i.
Proof.
  intros Hun. rewrite choose_first_selectable.
  by apply unrelated_first_selectable.
Qed.

End Selection_further.

Section Loop_further.
Context `{CPython}.
Variables (ufunc method_name : ptr) (in_items : list ptr)
          (normal_kwds : gmap string ptr).

(* a successful loop ends on the invocation that gave the result *)
Lemma resolves_success (w : World) (wo ms : list ptr) (e : loop_end)
    (v : ptr) :
  resolves ufunc method_name in_items normal_kwds w wo ms e ->
  loop_outcome e = Success v ->
  v <> NULL /\ v <> Py_NotImplemented
  /\ exists c, last (loop_calls e) = Some c /\ inv_ret c = v.
Proof.
  induction 1 as [w wo ms Hch | w wo ms i w' Hch Hcall
                  | w wo ms i w' result Hch Hcall Hnull Hni
                  | w wo ms i w' rest Hch Hcall Hrest IH]; intros Hout.
  - unfold report_unhandled in Hout.
    destruct (npy_cache_import_runtime w) as [w1 [formatter |]]; [| done].
    by destruct (PyObject_Call w1 _ _ _).
  - done.
  - cbn in Hout. injection Hout as <-. repeat split; try done.
    eexists. by split.
  - cbn in Hout. destruct (IH Hout) as (Hn & Hni & c & Hlast & Hret).
    repeat split; try done. exists c. split; [| done].
    cbn [loop_calls]. destruct (loop_calls rest); [done |].
    by rewrite last_cons_cons.
Qed.

(* the formatter is reached only through declining invocations *)
Lemma resolves_report_declined (w : World) (wo ms : list ptr) (e : loop_end) :
  resolves ufunc method_name in_items normal_kwds w wo ms e ->
  is_Some (loop_report e) ->
  Forall (fun c => inv_ret c = Py_NotImplemented) (loop_calls e).
Proof.
  induction 1 as [w wo ms Hch | w wo ms i w' Hch Hcall
                  | w wo ms i w' result Hch Hcall Hnull Hni
                  | w wo ms i w' rest Hch Hcall Hrest IH]; intros Hrep.
  - unfold report_unhandled.
    destruct (npy_cache_import_runtime w) as [w1 [formatter |]]; [| done].
    by destruct (PyObject_Call w1 _ _ _).
  - by destruct Hrep.
  - by destruct Hrep.
  - cbn in *. constructor; [done | by apply IH].
Qed.

End Loop_further.

Section Dispatch_further.
Context `{CPython}.

(** Property X18.  When no candidate has a type that derives from the type of
    another, the handlers are invoked in the order of the scan: invocation [k]
    is made on the candidate of slot [k] with the handler of slot [k]. *)
Theorem unrelated_candidates_left_to_right (ufunc : ptr) (method : string)
    (in_args out_args wheremask_obj : ptr) (args : list ptr) (len_args : nat)
    (kwnames : ptr) (w : World) (with_override methods : list ptr) :
  scan_result (get_array_ufunc_overrides in_args out_args wheremask_obj)
    = Overrides with_override methods ->
  unrelated with_override ->
  let r := PyUFunc_CheckOverride ufunc method in_args out_args wheremask_obj
             args len_args kwnames w in
  forall k c, run_calls r !! k = Some c ->
    with_override !! k = Some (inv_self c)
    /\ methods !! k = Some (inv_callee c).
Proof.
  intros Hres Hun r k c Hk.
  destruct (check_override_cases ufunc method in_args out_args wheremask_obj
              args len_args kwnames w)
    as [(Hcalls & _) | (wo & ms & kw & e & Hres' & _ & _ & Hrun & _ & Hcalls & _)];
    fold r in Hcalls; rewrite Hcalls in Hk; [done |].
  rewrite Hres in Hres'. injection Hres' as <- <-.
  destruct (collected_inv _ _ _ _ _ Hres)
    as [Hlength Hbound Hnotnull Htypes Hmethods Hcovered Hfirstocc].
  destruct (resolves_selection _ _ _ _ _ _ _ _ Hrun) as (sel & Hlen & Hsel).
  (* round k selects slot k *)
  assert (Hround : forall n i, sel !! n = Some i -> i = n).
  { intros n. induction (lt_wf n) as [n _ IH]. intros i Hn.
    destruct (Hsel n i Hn)
      as (Hfirst & Hout & _ & obj & _ & Hobj & _).
    assert (Hbelow : forall x, x ∈ take n sel -> (x < n)%nat).
    { intros x Hx. apply elem_of_take in Hx as (idx & Hidx & Hlt).
      by rewrite (IH idx Hlt x Hidx). }
    assert (Hge : (n <= i)%nat).
    { destruct (Nat.le_gt_cases n i) as [| Hlt]; [done |].
      destruct Hout. apply elem_of_take.
      apply lookup_lt_Some in Hn as Hn'.
      destruct (lookup_lt_is_Some_2 sel i ltac:(lia)) as [x Hx].
      rewrite (IH i Hlt x Hx) in Hx. by exists i. }
    destruct (Nat.eq_dec i n) as [| Hne]; [done |]. exfalso.
    apply lookup_lt_Some in Hobj as Hi.
    destruct (lookup_lt_is_Some_2 with_override n ltac:(lia)) as [objn Hobjn].
    destruct Hfirst as [_ Hmin]. apply (Hmin n ltac:(lia)).
    apply unrelated_selectable; [by apply unrelated_clear_slots |].
    exists objn. split.
    - rewrite clear_slots_lookup_other; [done |].
      intros Hin. apply Hbelow in Hin. lia.
    - by eapply Forall_lookup_1 in Hnotnull. }
  destruct (lookup_lt_is_Some_2 sel k) as [i Hi].
  { rewrite Hlen. by eapply lookup_lt_Some. }
  rewrite (Hround k i Hi) in Hi.
  destruct (Hsel k k Hi) as (_ & _ & c' & obj & Hc' & Hobj & _ & Hself & Hcallee).
  assert (c' = c) as -> by congruence.
  split; [congruence |].
  apply lookup_lt_Some in Hobj. rewrite Hlength in Hobj. rewrite Hcallee.
  by destruct (nth_lookup_or_length methods k NULL); [| lia].
Qed.

(** Property X19.  No operand is offered the call twice: in every call the
    operands of the invocations are pairwise distinct, so there are at most as
    many invocations as candidates. *)
Theorem each_candidate_at_most_once (ufunc : ptr) (method : string)
    (in_args out_args wheremask_obj : ptr) (args : list ptr) (len_args : nat)
    (kwnames : ptr) (w : World) (with_override methods : list ptr) :
  scan_result (get_array_ufunc_overrides in_args out_args wheremask_obj)
    = Overrides with_override methods ->
  let r := PyUFunc_CheckOverride ufunc method in_args out_args wheremask_obj
             args len_args kwnames w in
  NoDup (map inv_self (run_calls r))
  /\ (length (run_calls r) <= length with_override)%nat.
Proof.
  intros Hres r.
  destruct (check_override_cases ufunc method in_args out_args wheremask_obj
              args len_args kwnames w)
    as [(Hcalls & _) | (wo & ms & kw & e & Hres' & _ & _ & Hrun & _ & Hcalls & _)];
    fold r in Hcalls; rewrite Hcalls.
  { split; [constructor | cbn; lia]. }
  rewrite Hres in Hres'. injection Hres' as <- <-.
  destruct (collected_inv _ _ _ _ _ Hres)
    as [Hlength Hbound Hnotnull Htypes Hmethods Hcovered Hfirstocc].
  apply (NoDup_fmap_1 Py_TYPE) in Htypes.
  destruct (resolves_selection _ _ _ _ _ _ _ _ Hrun) as (sel & Hlen & Hsel).
  assert (Hsel_nodup : NoDup sel).
  { apply NoDup_alt. intros k1 k2 i Hk1 Hk2.
    destruct (Nat.lt_trichotomy k1 k2) as [Hlt | [Heq | Hlt]]; [| done |].
    - destruct (Hsel k2 i Hk2) as (_ & Hout & _). destruct Hout.
      apply elem_of_take. by exists k1.
    - destruct (Hsel k1 i Hk1) as (_ & Hout & _). destruct Hout.
      apply elem_of_take. by exists k2. }
  split.
  - apply NoDup_alt. intros k1 k2 x Hk1 Hk2.
    apply list_lookup_fmap_Some in Hk1 as (c1 & -> & Hc1).
    apply list_lookup_fmap_Some in Hk2 as (c2 & Hself & Hc2).
    destruct (lookup_lt_is_Some_2 sel k1) as [i1 Hi1].
    { rewrite Hlen. by eapply lookup_lt_Some. }
    destruct (lookup_lt_is_Some_2 sel k2) as [i2 Hi2].
    { rewrite Hlen. by eapply lookup_lt_Some. }
    destruct (Hsel k1 i1 Hi1) as (_ & _ & c1' & o1 & Hc1' & Ho1 & _ & Hs1 & _).
    destruct (Hsel k2 i2 Hi2) as (_ & _ & c2' & o2 & Hc2' & Ho2 & _ & Hs2 & _).
    assert (c1' = c1) as -> by congruence.
    assert (c2' = c2) as -> by congruence.
    assert (o1 = o2) as -> by congruence.
    assert (i1 = i2) as -> by (by eapply (NoDup_lookup with_override)).
    by eapply (NoDup_lookup sel).
  - rewrite <- Hlen.
    transitivity (length (seq 0 (length with_override))); [| by rewrite length_seq].
    apply submseteq_length, NoDup_submseteq; [done |].
    intros i Hi. apply list_elem_of_lookup in Hi as [k Hk].
    destruct (Hsel k i Hk) as (_ & _ & _ & obj & _ & Hobj & _).
    apply lookup_lt_Some in Hobj. apply elem_of_seq. lia.
Qed.

(** Property X20.  What a success means: either the result is NULL, and then no
    candidate was collected and nothing was invoked (there is no override); or
    the result is an object other than [Py_NotImplemented], the value that the
    last invocation returned. *)
Theorem success_is_no_override_or_an_answer (ufunc : ptr) (method : string)
    (in_args out_args wheremask_obj : ptr) (args : list ptr) (len_args : nat)
    (kwnames : ptr) (w : World) (v : ptr) :
  let r := PyUFunc_CheckOverride ufunc method in_args out_args wheremask_obj
             args len_args kwnames w in
  run_outcome r = Success v ->
  (v = NULL /\ run_calls r = []
   /\ exists methods,
        scan_result (get_array_ufunc_overrides in_args out_args wheremask_obj)
        = Overrides [] methods)
  \/ (v <> NULL /\ v <> Py_NotImplemented
      /\ exists c, last (run_calls r) = Some c /\ inv_ret c = v).
Proof.
  intros r Hout.
  destruct (scan_result (get_array_ufunc_overrides in_args out_args wheremask_obj))
    as [wo ms | err |] eqn:Hres.
  2, 3: unfold r, PyUFunc_CheckOverride in Hout; by rewrite Hres in Hout.
  destruct wo as [| obj wo].
  { left. unfold r, PyUFunc_CheckOverride in *. rewrite Hres in *.
    cbn in *. injection Hout as <-. repeat split; try done. by exists ms. }
  destruct (normalize_ufunc_arguments method out_args args len_args kwnames)
    as [kw | err |] eqn:Hkw.
  2, 3: unfold r, PyUFunc_CheckOverride in Hout; by rewrite Hres, Hkw in Hout.
  right.
  destruct (check_override_reaches_loop ufunc method in_args out_args
              wheremask_obj args len_args kwnames w _ _ _ Hres
              ltac:(discriminate) Hkw) as (e & Hrun & Hr).
  unfold r in *. rewrite Hr in *. cbn [run_outcome run_calls] in *.
  by eapply resolves_success.
Qed.

(** Property X21.  The formatter is called only after every candidate has
    declined: if the call reports an unhandled override, then every candidate
    was invoked once, every invocation returned [Py_NotImplemented], and the
    call fails. *)
Theorem report_only_after_all_declined (ufunc : ptr) (method : string)
    (in_args out_args wheremask_obj : ptr) (args : list ptr) (len_args : nat)
    (kwnames : ptr) (w : World) (report : invocation) :
  let r := PyUFunc_CheckOverride ufunc method in_args out_args wheremask_obj
             args len_args kwnames w in
  run_report r = Some report ->
  exists with_override methods,
    scan_result (get_array_ufunc_overrides in_args out_args wheremask_obj)
      = Overrides with_override methods
    /\ Forall (fun c => inv_ret c = Py_NotImplemented) (run_calls r)
    /\ map candidate_of (run_calls r) ≡ₚ zip with_override methods
    /\ exists err, run_outcome r = Failure err.
Proof.
  intros r Hrep.
  destruct (check_override_cases ufunc method in_args out_args wheremask_obj
              args len_args kwnames w)
    as [(_ & Hnone & _)
       | (wo & ms & kw & e & Hres & _ & _ & Hrun & Hout & Hcalls & Hreport)];
    fold r in Hnone || fold r in Hout, Hcalls, Hreport; [congruence |].
  destruct (collected_inv _ _ _ _ _ Hres)
    as [Hlength Hbound Hnotnull Htypes Hmethods Hcovered Hfirstocc].
  rewrite Hreport in Hrep.
  assert (Hall : Forall (fun c => inv_ret c = Py_NotImplemented) (loop_calls e)).
  { eapply resolves_report_declined; [exact Hrun | by rewrite Hrep]. }
  destruct (resolves_all_declined _ _ _ _ _ _ _ _ Hrun Hlength Hall)
    as [Hperm Hfail].
  exists wo, ms. rewrite Hcalls, Hout. split; [done |]. split; [done |]. split.
  - rewrite Hperm, filter_all; [done |].
    apply Forall_lookup_2. intros i [obj m] Hi. cbn.
    apply lookup_zip_with_Some in Hi as (obj' & m' & [= <- <-] & Hobj & _).
    by eapply Forall_lookup_1 in Hnotnull.
  - rewrite Hrep in Hfail. destruct Hfail as (_ & _ & ->). by eexists.
Qed.

End Dispatch_further.

Section Keywords_further.
Context `{CPython}.

Section Report.
Variables (ufunc method_name : ptr) (in_items : list ptr)
          (normal_kwds : gmap string ptr).


End Report.


End Keywords_further.

(** ** The query log *)

Section Queries_further.
Context `{CPython}.

Lemma scan_queries_sublist (operands wo ms : list ptr) :
  map fst (scan_queries (scan_operands operands wo ms)) `sublist_of` operands.
Proof.
  revert wo ms. induction operands as [| obj operands IH]; intros wo ms; [done |].
  cbn [scan_operands].
  destruct (N.eqb obj NULL); [apply sublist_nil_l |].
  destruct (new_class obj wo); [| by apply sublist_cons].
  destruct (N.eqb (PyUFuncOverride_GetNonDefaultArrayUfunc obj) NULL).
  { cbn. by apply sublist_skip. }
  destruct (N.eqb (PyUFuncOverride_GetNonDefaultArrayUfunc obj) Py_None).
  { cbn. apply sublist_skip, sublist_nil_l. }
  destruct (NPY_MAXARGS <=? length wo)%nat.
  { cbn. apply sublist_skip, sublist_nil_l. }
  cbn. by apply sublist_skip.
Qed.

Lemma scan_queries_results (operands wo ms : list ptr) :
  Forall (fun q : ptr * ptr =>
            q.1 <> NULL /\ q.2 = PyUFuncOverride_GetNonDefaultArrayUfunc q.1)
    (scan_queries (scan_operands operands wo ms)).
Proof.
  revert wo ms. induction operands as [| obj operands IH]; intros wo ms;
    [by constructor |].
  cbn [scan_operands].
  destruct (N.eqb_spec obj NULL) as [| Hobj]; [by constructor |].
  destruct (new_class obj wo); [| done].
  destruct (N.eqb (PyUFuncOverride_GetNonDefaultArrayUfunc obj) NULL).
  { cbn. by constructor. }
  destruct (N.eqb (PyUFuncOverride_GetNonDefaultArrayUfunc obj) Py_None).
  { cbn. by repeat constructor. }
  destruct (NPY_MAXARGS <=? length wo)%nat.
  { cbn. by repeat constructor. }
  cbn. by constructor.
Qed.

Lemma scan_queries_types (operands wo ms : list ptr) :
  NoDup (map Py_TYPE wo) ->
  NoDup (map Py_TYPE
           (wo ++ answered (scan_queries (scan_operands operands wo ms)))).
Proof.
  revert wo ms. induction operands as [| obj operands IH]; intros wo ms Hwo.
  { cbn. by rewrite app_nil_r. }
  assert (Hone : new_class obj wo = true ->
                 NoDup (map Py_TYPE (wo ++ [obj]))).
  { intros Hnew. apply new_class_true in Hnew.
    rewrite map_app. apply NoDup_app. split; [done |]. split.
    - intros ty Hin Hin'. cbn in Hin'.
      apply list_elem_of_singleton in Hin' as ->. done.
    - cbn. apply NoDup_singleton. }
  cbn [scan_operands].
  destruct (N.eqb obj NULL).
  { cbn. by rewrite app_nil_r. }
  destruct (new_class obj wo) eqn:Hnew; [| by apply IH].
  destruct (N.eqb_spec (PyUFuncOverride_GetNonDefaultArrayUfunc obj) NULL)
    as [Hm | Hm].
  { unfold answered. cbn [scan_queries]. rewrite filter_cons_False by (cbn; tauto).
    by apply IH. }
  destruct (N.eqb (PyUFuncOverride_GetNonDefaultArrayUfunc obj) Py_None).
  { unfold answered. cbn [scan_queries]. rewrite filter_cons_True by done.
    by apply Hone. }
  destruct (NPY_MAXARGS <=? length wo)%nat.
  { unfold answered. cbn [scan_queries]. rewrite filter_cons_True by done.
    by apply Hone. }
  unfold answered. cbn [scan_queries]. rewrite filter_cons_True by done.
  cbn [map fst]. rewrite (cons_middle obj wo), app_assoc.
  apply IH. by apply Hone.
Qed.

(** Property X23.  The handler lookup follows the scan: it is made on operands
    in the order of the scan, never on a NULL item, each query is logged with
    what the lookup returned, and the operands found to have a handler (or the
    marker [None]) have pairwise distinct types: a type with a handler is looked
    up once. *)
Theorem lookups_follow_the_scan (in_args out_args wheremask_obj : ptr) :
  let s := get_array_ufunc_overrides in_args out_args wheremask_obj in
  map fst (scan_queries s)
    `sublist_of` scanned_operands in_args out_args wheremask_obj
  /\ Forall (fun q : ptr * ptr =>
               q.1 <> NULL
               /\ q.2 = PyUFuncOverride_GetNonDefaultArrayUfunc q.1)
       (scan_queries s)
  /\ NoDup (map Py_TYPE (answered (scan_queries s))).
Proof.
  intros s. split; [apply scan_queries_sublist |].
  split; [apply scan_queries_results |].
  apply (scan_queries_types _ [] []). constructor.
Qed.

End Queries_further.

(** * Runs of the example interpreter *)

Section Runs.
Import Example.

(* __call__ with the keyword sig: the dictionary {sig: 5} *)
Lemma sig_renamed_to_signature_witness :
  exists m',
    normalize_by_method (H := python) "__call__" [20; 5] 1 {["sig" := 5]} = Ok m'
    /\ m' !! "signature" = Some 5
    /\ m' !! "sig" = None
    /\ forall k, k <> "sig" -> k <> "signature" ->
         m' !! k = ({["sig" := 5]} : gmap string ptr) !! k.
Proof.
  apply (sig_renamed_to_signature (H := python) "__call__" [20; 5] 1
           {["sig" := 5]} 5); [left; reflexivity | reflexivity].
Defined.



(* inputs (a, c, d): a is collected, c has __array_ufunc__ = None, d would
   have answered *)
Lemma disabled_operand_fails_witness :
  let r := PyUFunc_CheckOverride (H := python) 9 "__call__" 46 NULL NULL [] 0
             NULL 0%nat in
  run_outcome r
  = Failure (TypeError (unsupported_message (H := python) 23))
  /\ unsupported_message (H := python) 23
     = "operand 'C' does not support ufuncs (__array_ufunc__=None)"
  /\ run_calls r = []
  /\ run_report r = None
  /\ run_world r = 0%nat
  /\ (exists earlier, run_queries r = earlier ++ [(23, 1)])
  /\ forall o, held (run_refs r) o = 0%Z.
Proof.
  assert (Hquery : (23, 1) ∈ run_queries
            (PyUFunc_CheckOverride (H := python) 9 "__call__" 46 NULL NULL []
               0 NULL 0%nat))
    by (vm_compute; repeat constructor).
  destruct (disabled_operand_fails (H := python) 9 "__call__" 46 NULL NULL [] 0
              NULL 0%nat 23 Hquery) as (Hout & Hrest).
  split; [exact Hout |]. split; [reflexivity | exact Hrest].
Defined.

(* inputs (a, b, d) with B derived from A: the invocation on a is the
   second one, after the invocation on b *)
Lemma subtypes_first_then_left_to_right_witness :
  let r := PyUFunc_CheckOverride (H := python) 9 "__call__" 41 NULL NULL [] 0
             NULL 0%nat in
  exists k' c', (k' < 1)%nat /\ run_calls r !! k' = Some c'
    /\ inv_self c' = 22 /\ inv_callee c' = 32.
Proof.
  assert (Hscan : scan_result (get_array_ufunc_overrides (H := python) 41 NULL NULL)
                  = Overrides [21; 22; 24] [31; 32; 34])
    by (vm_compute; reflexivity).
  assert (Hder : strictly_derived (H := python) 22 21)
    by (split; vm_compute; discriminate).
  pose proof (proj2 (subtypes_first_then_left_to_right (H := python) 9 "__call__"
                       41 NULL NULL [] 0 NULL 0%nat [21; 22; 24] [31; 32; 34]
                       Hscan)
                21 22 eq_refl eq_refl Hder
                1%nat (Invocation 31 [21; 9; 70; 21; 22; 24] ∅ 2)) as Hrun.
  apply Hrun.
  - vm_compute. reflexivity.
  - reflexivity.
Defined.



(* inputs (a, b, d): d answers 77 in the third invocation; inputs (e, d):
   the handler of e raises in the first *)
Lemma first_answer_ends_resolution_witness :
  (let r := PyUFunc_CheckOverride (H := python) 9 "__call__" 41 NULL NULL [] 0
              NULL 0%nat in
   length (run_calls r) = 3%nat
   /\ run_report r = None
   /\ run_outcome r = Success 77)
  /\ (let r := PyUFunc_CheckOverride (H := python) 9 "__call__" 44 NULL NULL []
                 0 NULL 0%nat in
      length (run_calls r) = 1%nat
      /\ run_report r = None
      /\ run_outcome r = Failure Pending).
Proof.
  split.
  - apply (first_answer_ends_resolution (H := python) 9 "__call__" 41 NULL NULL
             [] 0 NULL 0%nat 2 (Invocation 34 [24; 9; 70; 21; 22; 24] ∅ 77));
      [vm_compute; reflexivity | discriminate].
  - apply (first_answer_ends_resolution (H := python) 9 "__call__" 44 NULL NULL
             [] 0 NULL 0%nat 0 (Invocation 35 [25; 9; 70; 25; 24] ∅ NULL));
      [vm_compute; reflexivity | discriminate].
Defined.


(* inputs (a, b) and a method name that does not exist *)
Lemma unknown_method_rejected_witness :
  let r := PyUFunc_CheckOverride (H := python) 9 "bogus" 40 NULL NULL [] 0
             NULL 0%nat in
  run_outcome r
  = Failure (TypeError (unknown_method_message "bogus"))
  /\ run_queries r = [(21, 31); (22, 32)]
  /\ run_calls r = []
  /\ run_report r = None
  /\ run_world r = 0%nat.
Proof.
  apply (unknown_method_rejected (H := python) 9 "bogus" 40 NULL NULL [] 0 NULL
           0%nat [21; 22] [31; 32]).
  - compute_done.
  - reflexivity.
  - discriminate.
  - by eexists.
Defined.

(** Claim C9 fails as stated: "bogus" is none of the six method names, yet
    with the one plain array [x] as input, which supplies no handler, the
    call returns 0 with a NULL result and raises nothing. *)
Lemma unknown_method_without_candidates :
  ("bogus" ∉ known_methods)
  /\ run_outcome (PyUFunc_CheckOverride (H := python) 9 "bogus" 43 NULL NULL [] 0
                    NULL 0%nat) = Success NULL.
Proof.
  split; [compute_done | reflexivity].
Qed.

(* an unknown method name and a keyword name without its value: neither is
   looked at when no candidate is found *)
Lemma no_candidates_no_override_witness :
  let r := PyUFunc_CheckOverride (H := python) 9 "bogus" 43 NULL NULL [] 7 60
             0%nat in
  run_outcome r = Success NULL
  /\ run_calls r = []
  /\ run_report r = None
  /\ run_world r = 0%nat.
Proof.
  apply (no_candidates_no_override (H := python) 9 "bogus" 43 NULL NULL [] 7 60
           0%nat [] []); reflexivity.
Defined.

(* without the formatter the exhausted loop leaves the import's error *)
Example unhandled_without_formatter :
  let r := PyUFunc_CheckOverride (H := python_without_formatter) 9 "__call__"
             40 NULL NULL [] 0 NULL 0%nat in
  run_outcome r = Failure Pending
  /\ map candidate_of (run_calls r) = [(22, 32); (21, 31)]
  /\ run_report r = None.
Proof. vm_compute. done. Qed.

(* (x, y) with x a plain array and y of a type with a handler that answers *)
Example one_override_answers :
  let r := PyUFunc_CheckOverride (H := python) 9 "__call__" 47 NULL NULL [] 0
             NULL 0%nat in
  run_outcome r = Success 77
  /\ run_calls r = [Invocation 34 [24; 9; 70; 20; 24] ∅ 77].
Proof. vm_compute. done. Qed.

End Runs.

(** * Runs of the second interpreter *)

Section Further_runs.

(* reduce(x, axis=5, out=t) reaching the normalizer with no output tuple:
   the keyword out is dropped *)
Lemma normalized_out_is_the_output_tuple_witness :
  exists kw,
    normalize_ufunc_arguments (H := Cases.python) "reduce" NULL [20; 5; 43] 1 60
    = Ok kw
    /\ kw !! "out" = None.
Proof.
  assert (Hn : exists kw,
            normalize_ufunc_arguments (H := Cases.python) "reduce" NULL
              [20; 5; 43] 1 60 = Ok kw)
    by (vm_compute; eexists; reflexivity).
  destruct Hn as [kw Hn]. exists kw. split; [exact Hn |].
  exact (normalized_out_is_the_output_tuple (H := Cases.python) _ _ _ _ _ _ Hn).
Defined.

(* keyword names (axis, out) with the values 5 and 43 after one positional
   argument *)
Lemma keywords_pass_through_witness :
  exists kw,
    initialize_normal_kwds (H := Cases.python) NULL [20; 5; 43] 1 60 ∅ = Some kw
    /\ kw !! "axis" = Some 5.
Proof.
  assert (Hn : exists kw,
            initialize_normal_kwds (H := Cases.python) NULL [20; 5; 43] 1 60 ∅
            = Some kw)
    by (vm_compute; eexists; reflexivity).
  destruct Hn as [kw Hn]. exists kw. split; [exact Hn |].
  assert (Hnames : NoDup (map (PyUnicode_AsUTF8 (CPython := Cases.python))
                            (PyTuple_items (CPython := Cases.python) 60)))
    by (cbn; compute_done).
  assert (Htext : PyUnicode_AsUTF8 (CPython := Cases.python) 62 <> "out")
    by discriminate.
  exact (proj2 (keywords_pass_through (H := Cases.python) NULL [20; 5; 43] 1 60
                  kw 0 62 Hn ltac:(discriminate) Hnames eq_refl Htext)).
Defined.

(* __call__(x, sig=5) *)
Lemma sig_never_survives_witness :
  exists kw,
    normalize_ufunc_arguments (H := Example.python) "__call__" NULL [20; 5] 1 60
    = Ok kw
    /\ kw !! "sig" = None
    /\ normalize_signature_keyword kw = kw.
Proof.
  assert (Hn : exists kw,
            normalize_ufunc_arguments (H := Example.python) "__call__" NULL
              [20; 5] 1 60 = Ok kw)
    by (vm_compute; eexists; reflexivity).
  destruct Hn as [kw Hn]. exists kw. split; [exact Hn |].
  exact (sig_never_survives (H := Example.python) "__call__" _ _ _ _ _
           (or_introl eq_refl) Hn).
Defined.

(* reduce(x, 7, 8, 9, 10, _NoValue, 11) over a dictionary that holds
   axis = 5: the positional axis wins, initial stays absent *)
Lemma positional_overrides_keyword_witness :
  exists kw',
    copy_positional_args_to_kwargs (H := Cases.python) reduce_keywords
      [20; 7; 8; 9; 10; 3; 11] 7 {["axis" := 5]} = Some kw'
    /\ kw' !! "axis" = Some 7
    /\ kw' !! "initial" = None
    /\ kw' !! "out" = None.
Proof.
  assert (Hn : exists kw',
            copy_positional_args_to_kwargs (H := Cases.python) reduce_keywords
              [20; 7; 8; 9; 10; 3; 11] 7 {["axis" := 5]} = Some kw')
    by (vm_compute; eexists; reflexivity).
  destruct Hn as [kw' Hn]. exists kw'. split; [exact Hn |].
  destruct (positional_overrides_keyword (H := Cases.python) reduce_keywords
              [20; 7; 8; 9; 10; 3; 11] 7 {["axis" := 5]} kw'
              ltac:(repeat constructor) Hn) as [Hcopied Hkept].
  split; [| split].
  - destruct (Hcopied 1%nat "axis" ltac:(lia) eq_refl) as (value & Hv & Hkw).
    injection Hv as <-. exact Hkw.
  - destruct (Hcopied 5%nat "initial" ltac:(lia) eq_refl) as (value & Hv & Hkw).
    injection Hv as <-. exact Hkw.
  - rewrite (Hkept "out"); [reflexivity |].
    intros j Hj. do 7 (destruct j as [| j]; [discriminate |]). lia.
Defined.

(* reduce(x, 5, initial=6) with the output tuple 43 *)
Lemma well_formed_call_is_normalized_witness :
  exists kw,
    normalize_ufunc_arguments (H := Cases.python) "reduce" 43 [20; 5; 6] 2 61
    = Ok kw.
Proof.
  apply (well_formed_call_is_normalized (H := Cases.python) "reduce" 43
           [20; 5; 6] 2 61).
  - repeat constructor.
  - cbn. lia.
  - right. cbn. lia.
  - intros limit [= <-]. cbn. lia.
Defined.

(* inputs (d, x, f): candidates d and f *)
Lemma collected_handlers_are_live_witness :
  length [24; 26] = length [34; 36]
  /\ Cases.array_ufunc_of 26 <> NULL
  /\ Cases.array_ufunc_of 26 <> 1.
Proof.
  assert (Hscan : scan_result
                    (get_array_ufunc_overrides (H := Cases.python) 42 NULL NULL)
                  = Overrides [24; 26] [34; 36])
    by (vm_compute; reflexivity).
  destruct (collected_handlers_are_live (H := Cases.python) 42 NULL NULL
              [24; 26] [34; 36] Hscan) as [Hlen Hlive].
  split; [exact Hlen |].
  destruct (Hlive 1%nat 26 eq_refl) as (_ & _ & Hlive1 & Hlive2).
  split; [exact Hlive1 | exact Hlive2].
Defined.

Lemma candidates_in_scan_order_witness :
  [24; 26] `sublist_of` scanned_operands (H := Cases.python) 42 NULL NULL.
Proof.
  assert (Hscan : scan_result
                    (get_array_ufunc_overrides (H := Cases.python) 42 NULL NULL)
                  = Overrides [24; 26] [34; 36])
    by (vm_compute; reflexivity).
  exact (candidates_in_scan_order (H := Cases.python) 42 NULL NULL
           [24; 26] [34; 36] Hscan).
Defined.

(* inputs (x,), outputs (f, a), mask d *)
Lemma input_candidates_come_first_witness :
  (exists wo_in ms_in,
     scan_result (get_array_ufunc_overrides (H := Cases.python) 43 NULL NULL)
       = Overrides wo_in ms_in
     /\ wo_in `prefix_of` [26; 21; 24] /\ ms_in `prefix_of` [36; 31; 34])
  /\ (exists wo_io ms_io,
        scan_result (get_array_ufunc_overrides (H := Cases.python) 43 44 NULL)
          = Overrides wo_io ms_io
        /\ wo_io `prefix_of` [26; 21; 24] /\ ms_io `prefix_of` [36; 31; 34]).
Proof.
  assert (Hscan : scan_result
                    (get_array_ufunc_overrides (H := Cases.python) 43 44 24)
                  = Overrides [26; 21; 24] [36; 31; 34])
    by (vm_compute; reflexivity).
  exact (input_candidates_come_first (H := Cases.python) 43 44 24
           [26; 21; 24] [36; 31; 34] Hscan).
Defined.

(* the plain array x of (d, x, f) has no handler *)
Lemma no_override_is_missed_witness :
  20 <> NULL
  /\ (Cases.array_ufunc_of 20 = NULL
      \/ exists candidate, candidate ∈ [24; 26]
           /\ Cases.type_of candidate = Cases.type_of 20).
Proof.
  assert (Hscan : scan_result
                    (get_array_ufunc_overrides (H := Cases.python) 42 NULL NULL)
                  = Overrides [24; 26] [34; 36])
    by (vm_compute; reflexivity).
  assert (Hin : 20 ∈ scanned_operands (H := Cases.python) 42 NULL NULL)
    by (vm_compute; repeat constructor).
  exact (no_override_is_missed (H := Cases.python) 42 NULL NULL
           [24; 26] [34; 36] Hscan 20 Hin).
Defined.

(* inputs (d, <NULL item>, a) *)
Lemma null_operand_fails_witness :
  let r := PyUFunc_CheckOverride (H := Cases.python) 9 "__call__" 41 NULL NULL
             [] 0 NULL 0%nat in
  run_outcome r = Failure (TypeError retrieve_message)
  /\ run_calls r = []
  /\ run_report r = None
  /\ run_world r = 0%nat
  /\ forall o, held (run_refs r) o = 0%Z.
Proof.
  assert (Hbefore : Forall (fun obj => obj <> NULL
                      /\ PyUFuncOverride_GetNonDefaultArrayUfunc
                           (CPython := Cases.python) obj
                         <> Py_None (CPython := Cases.python)) [24])
    by (repeat constructor; discriminate).
  exact (null_operand_fails (H := Cases.python) 9 "__call__" 41 NULL NULL [] 0
           NULL 0%nat [24] [21] eq_refl Hbefore ltac:(cbn; lia)).
Defined.

(* inputs (d, c): c has __array_ufunc__ = None *)
Lemma collector_failure_releases_witness :
  ((TypeError (unsupported_message (H := Cases.python) 23)
    = TypeError retrieve_message
    /\ NULL ∈ scanned_operands (H := Cases.python) 45 NULL NULL)
   \/ exists obj, obj ∈ scanned_operands (H := Cases.python) 45 NULL NULL
        /\ Cases.array_ufunc_of obj = 1
        /\ TypeError (unsupported_message (H := Cases.python) 23)
           = TypeError (unsupported_message (H := Cases.python) obj))
  /\ forall o,
       held (scan_refs (get_array_ufunc_overrides (H := Cases.python) 45 NULL
                          NULL)) o = 0%Z.
Proof.
  assert (Hscan : scan_result
                    (get_array_ufunc_overrides (H := Cases.python) 45 NULL NULL)
                  = Collect_error
                      (TypeError (unsupported_message (H := Cases.python) 23)))
    by (vm_compute; reflexivity).
  exact (collector_failure_releases (H := Cases.python) 45 NULL NULL _ Hscan).
Defined.

(* after the scan of (d, x, f) one reference to f is held *)
Lemma collected_references_are_held_witness :
  held (scan_refs (get_array_ufunc_overrides (H := Cases.python) 42 NULL NULL))
    26 = 1%Z.
Proof.
  assert (Hscan : scan_result
                    (get_array_ufunc_overrides (H := Cases.python) 42 NULL NULL)
                  = Overrides [24; 26] [34; 36])
    by (vm_compute; reflexivity).
  exact (collected_references_are_held (H := Cases.python) 42 NULL NULL
           [24; 26] [34; 36] 26 Hscan).
Defined.

Lemma cases_unrelated (slots : list ptr) :
  Forall (fun obj => obj ∈ [NULL; 24; 26]) slots ->
  unrelated (H := Cases.python) slots.
Proof.
  intros Hslots a b Ha Hb Hna Hnb [Hty Hinst].
  rewrite Forall_forall in Hslots.
  apply Hslots in Ha, Hb.
  repeat (apply elem_of_cons in Ha as [-> | Ha]); [| | | by apply elem_of_nil in Ha];
  repeat (apply elem_of_cons in Hb as [-> | Hb]); try (by apply elem_of_nil in Hb);
    try done.
Qed.

(* slots (NULL, d, f): d is selected *)
Lemma unrelated_selects_leftmost_witness :
  choose (H := Cases.python) [NULL; 24; 26] = Some 1%nat
  <-> first_remaining [NULL; 24; 26] 1.
Proof.
  apply (unrelated_selects_leftmost (H := Cases.python) [NULL; 24; 26] 1).
  apply cases_unrelated. repeat constructor.
Defined.

(* inputs (d, x, f): d declines, then f answers 88 *)
Lemma unrelated_candidates_left_to_right_witness :
  let r := PyUFunc_CheckOverride (H := Cases.python) 9 "__call__" 42 NULL NULL
             [] 0 NULL 0%nat in
  exists c, run_calls r !! 1%nat = Some c
    /\ inv_self c = 26 /\ inv_callee c = 36.
Proof.
  assert (Hscan : scan_result
                    (get_array_ufunc_overrides (H := Cases.python) 42 NULL NULL)
                  = Overrides [24; 26] [34; 36])
    by (vm_compute; reflexivity).
  assert (Hun : unrelated (H := Cases.python) [24; 26])
    by (apply cases_unrelated; repeat constructor).
  assert (Hcall : exists c,
            run_calls (PyUFunc_CheckOverride (H := Cases.python) 9 "__call__"
                         42 NULL NULL [] 0 NULL 0%nat) !! 1%nat = Some c)
    by (vm_compute; eexists; reflexivity).
  destruct Hcall as [c Hc]. exists c. split; [exact Hc |].
  destruct (unrelated_candidates_left_to_right (H := Cases.python) 9 "__call__"
              42 NULL NULL [] 0 NULL 0%nat [24; 26] [34; 36] Hscan Hun
              1%nat c Hc) as [Hself Hcallee].
  cbn in Hself, Hcallee. split; congruence.
Defined.

Lemma each_candidate_at_most_once_witness :
  let r := PyUFunc_CheckOverride (H := Cases.python) 9 "__call__" 42 NULL NULL
             [] 0 NULL 0%nat in
  NoDup (map inv_self (run_calls r))
  /\ (length (run_calls r) <= length [24; 26])%nat.
Proof.
  assert (Hscan : scan_result
                    (get_array_ufunc_overrides (H := Cases.python) 42 NULL NULL)
                  = Overrides [24; 26] [34; 36])
    by (vm_compute; reflexivity).
  exact (each_candidate_at_most_once (H := Cases.python) 9 "__call__"
           42 NULL NULL [] 0 NULL 0%nat [24; 26] [34; 36] Hscan).
Defined.

Lemma success_is_no_override_or_an_answer_witness :
  let r := PyUFunc_CheckOverride (H := Cases.python) 9 "__call__" 42 NULL NULL
             [] 0 NULL 0%nat in
  (88 = NULL /\ run_calls r = []
   /\ exists methods,
        scan_result (get_array_ufunc_overrides (H := Cases.python) 42 NULL NULL)
        = Overrides [] methods)
  \/ (88 <> NULL /\ 88 <> 2
      /\ exists c, last (run_calls r) = Some c /\ inv_ret c = 88).
Proof.
  assert (Hout : run_outcome
                   (PyUFunc_CheckOverride (H := Cases.python) 9 "__call__" 42
                      NULL NULL [] 0 NULL 0%nat) = Success 88)
    by (vm_compute; reflexivity).
  exact (success_is_no_override_or_an_answer (H := Cases.python) 9 "__call__"
           42 NULL NULL [] 0 NULL 0%nat 88 Hout).
Defined.

(* inputs (a, b): both handlers decline and the formatter is called *)
Lemma report_only_after_all_declined_witness :
  let r := PyUFunc_CheckOverride (H := Cases.python) 9 "__call__" 40 NULL NULL
             [] 0 NULL 0%nat in
  exists with_override methods,
    scan_result (get_array_ufunc_overrides (H := Cases.python) 40 NULL NULL)
      = Overrides with_override methods
    /\ Forall (fun c => inv_ret c = 2) (run_calls r)
    /\ map candidate_of (run_calls r) ≡ₚ zip with_override methods
    /\ exists err, run_outcome r = Failure err.
Proof.
  assert (Hrep : exists report,
            run_report (PyUFunc_CheckOverride (H := Cases.python) 9 "__call__"
                          40 NULL NULL [] 0 NULL 0%nat) = Some report)
    by (vm_compute; eexists; reflexivity).
  destruct Hrep as [report Hrep].
  exact (report_only_after_all_declined (H := Cases.python) 9 "__call__"
           40 NULL NULL [] 0 NULL 0%nat report Hrep).
Defined.


(* inputs (d, x, f): f answers, nothing is left; inputs (a, b) when the
   formatter cannot be imported: a keeps the reference of the lost tuple *)
Lemma references_released_unless_import_fails_witness :
  held (run_refs (PyUFunc_CheckOverride (H := Cases.python) 9 "__call__" 42
                    NULL NULL [] 0 NULL 0%nat)) 26 = 0%Z
  /\ held (run_refs (PyUFunc_CheckOverride
                       (H := Example.python_without_formatter) 9 "__call__"
                       40 NULL NULL [] 0 NULL 0%nat)) 21 = 1%Z.
Proof.
  assert (Hdef : run_outcome
                   (PyUFunc_CheckOverride (H := Cases.python) 9 "__call__" 42
                      NULL NULL [] 0 NULL 0%nat) <> Undefined_behaviour)
    by (vm_compute; discriminate).
  assert (Hdef' : run_outcome
                    (PyUFunc_CheckOverride
                       (H := Example.python_without_formatter) 9 "__call__"
                       40 NULL NULL [] 0 NULL 0%nat) <> Undefined_behaviour)
    by (vm_compute; discriminate).
  split.
  - exact (references_released_unless_import_fails (H := Cases.python) 9
             "__call__" 42 NULL NULL [] 0 NULL 0%nat 26 Hdef).
  - exact (references_released_unless_import_fails
             (H := Example.python_without_formatter) 9 "__call__" 40 NULL NULL
             [] 0 NULL 0%nat 21 Hdef').
Defined.

Lemma collector_within_bounds_witness :
  scan_result (get_array_ufunc_overrides (H := Cases.python) 42 NULL NULL)
  <> Overflow.
Proof.
  apply (collector_within_bounds (H := Cases.python) 42 NULL NULL).
  cbn. lia.
Defined.

(* inputs (d, c) *)
Lemma disabled_operand_rejected_witness :
  let r := PyUFunc_CheckOverride (H := Cases.python) 9 "__call__" 45 NULL NULL
             [] 0 NULL 0%nat in
  exists obj, obj ∈ scanned_operands (H := Cases.python) 45 NULL NULL
    /\ Cases.array_ufunc_of obj = 1
    /\ run_outcome r
       = Failure (TypeError (unsupported_message (H := Cases.python) obj))
    /\ run_calls r = [].
Proof.
  apply (disabled_operand_rejected (H := Cases.python) 9 "__call__" 45 NULL
           NULL [] 0 NULL 0%nat).
  - intros a b Hty. cbn in *. unfold Cases.array_ufunc_of. by rewrite Hty.
  - cbn. repeat constructor; discriminate.
  - cbn. lia.
  - exists 23. split; [cbn; repeat constructor | reflexivity].
Defined.

End Further_runs.
